(** * mcp_demo: an MCP client driving Claude, and the OpenF1 tool server

    A shallow embedding of [openf1_utils.py], [f1_types.py],
    [stdio_server.py] and [client.py], and the properties of the
    conversation loop and of the retrying fetch that the specification
    states.

    Python values are modelled by [pyval]; the outside world (the HTTP
    endpoint, the model endpoint, the tool session) is a state that is
    threaded through every call, and each module keeps a log of the calls
    it makes to the outside, so that "how many attempts" and "which calls,
    in which order" are statements about that log. *)

From Stdlib Require Import ZArith List String Ascii Bool Lia PrimFloat DecimalString.
From Equations Require Import Equations.
Import ListNotations.

Set Warnings "-register-all".
Open Scope string_scope.
Open Scope list_scope.
Open Scope Z_scope.

(** ** Python values *)

(** The values that [response.json()] can return, and the one class of
    this repository whose instances are stored inside a dict
    ([MiniSectorValue], in [get_laps]). A [PDict] lists its items in
    insertion order, each key once. *)
Inductive pyval : Type :=
| PNone
| PBool (b : bool)
| PInt (z : Z)
| PFloat (f : float)
| PStr (s : string)
| PList (l : list pyval)
| PDict (d : list (string * pyval))
| PMiniSectorValue (performance : option string).

(** The outcome of code that may raise. *)
Inductive result (A : Type) : Type :=
| Ok (a : A)
| Raise.
Arguments Ok {A} a.
Arguments Raise {A}.

(** [str(n)] for a Python int. *)
Definition str_int (z : Z) : string := NilZero.string_of_int (Z.to_int z).

(** [bool(s)] for a Python str: the empty string is falsy. *)
Definition truthy_str (s : string) : bool :=
  match s with
  | EmptyString => false
  | String _ _ => true
  end.

(** [d[k]] on the items of a dict ([None]: KeyError). *)
Fixpoint dict_get (k : string) (d : list (string * pyval)) : option pyval :=
  match d with
  | [] => None
  | (k', v) :: d' => if String.eqb k k' then Some v else dict_get k d'
  end.

(** [d[k] = v]: an existing key keeps its place, a new one goes last. *)
Fixpoint dict_set (k : string) (v : pyval) (d : list (string * pyval))
  : list (string * pyval) :=
  match d with
  | [] => [(k, v)]
  | (k', v') :: d' =>
      if String.eqb k k' then (k, v) :: d' else (k', v') :: dict_set k v d'
  end.

(** [{**d1, **d2}]. *)
Definition dict_merge (d1 d2 : list (string * pyval)) : list (string * pyval) :=
  fold_left (fun acc kv => dict_set (fst kv) (snd kv) acc) d2 d1.

(** [" ".join(l)]. *)
Definition join_space (l : list string) : string := String.concat " " l.

(** ** openf1_utils.py *)

Module OpenF1Utils.

Definition BASE_URL : string := "https://api.openf1.org/v1".

Definition max_retries : Z := 5.

Section Fetch.

(** The upstream endpoint. One call is one pass through the [try] body
    of [get_response] ([client.get], [raise_for_status],
    [response.json()]): it yields the parsed payload, or [None] when
    any of the three raised an [Exception]. *)
Variable W : Type.
Variable http_get : string -> W -> option pyval * W.

(** The endpoint's state and the URLs requested so far, oldest first. *)
Record net : Type := mk_net { env : W; attempts : list string }.

Definition attempt (url : string) (st : net) : option pyval * net :=
  let (r, w') := http_get url (env st) in
  (r, mk_net w' (attempts st ++ [url])).

(** The [while retries < max_retries] loop. When the loop is left by its
    guard the function falls off its end and returns [None]. The two
    logger calls are not modelled. *)
Equations? get_response_loop (url : string) (retries : Z) (st : net)
  : pyval * net by wf (Z.to_nat (max_retries - retries)) lt :=
  get_response_loop url retries st with Logic.inspect (retries <? max_retries) := {
    | exist _ true Hguard =>
        match attempt url st with
        | (Some payload, st') => (payload, st')
        | (None, st') =>
            let retries' := retries + 1 in
            if retries' =? max_retries then (PNone, st')
            else get_response_loop url retries' st'
        end
    | exist _ false Hguard => (PNone, st) }.
Proof.
  change (Z.to_nat (max_retries - retries') < Z.to_nat (max_retries - retries))%nat.
  apply Z.ltb_lt in Hguard. subst retries'. lia.
Qed.

Definition get_response (url : string) (st : net) : pyval * net :=
  get_response_loop url 0 st.

(** [fails_k k url w w']: from state [w], the next [k] requests of [url]
    all fail, and leave the endpoint in state [w']. *)
Fixpoint fails_k (k : nat) (url : string) (w w' : W) : Prop :=
  match k with
  | O => w' = w
  | S k' => exists w1, http_get url w = (None, w1) /\ fails_k k' url w1 w'
  end.

End Fetch.

Arguments mk_net {W} env attempts.
Arguments env {W} n.
Arguments attempts {W} n.
Arguments attempt {W} http_get url st.
Arguments get_response_loop {W} http_get url retries st.
Arguments get_response {W} http_get url st.
Arguments fails_k {W} http_get k url w w'.

End OpenF1Utils.

(** ** f1_types.py *)

Module F1Types.

(** The pydantic models, as the records of their fields. *)
Record Session : Type := {
  s_session_key : Z;
  s_session_name : string;
  s_session_type : string;
  s_date_start : string;
  s_date_end : option string;
  s_meeting_key : Z;
  s_circuit_short_name : string;
  s_country_name : string;
  s_meeting_official_name : option string }.

Record Driver : Type := {
  d_broadcast_name : string;
  d_driver_number : Z;
  d_first_name : string;
  d_last_name : string;
  d_name_acronym : string;
  d_team_name : string;
  d_team_colour : option string;
  d_headshot_url : option string }.

Record MiniSectorValue : Type := { performance : option string }.

Record Lap : Type := {
  l_date_start : option string;
  l_duration_sector_1 : option float;
  l_duration_sector_2 : option float;
  l_duration_sector_3 : option float;
  l_i1_speed : option float;
  l_i2_speed : option float;
  l_st_speed : option float;
  l_is_pit_out_lap : option bool;
  l_lap_duration : option float;
  l_segments_sector_1 : option (list MiniSectorValue);
  l_segments_sector_2 : option (list MiniSectorValue);
  l_segments_sector_3 : option (list MiniSectorValue) }.

Record TrackConditions : Type := {
  t_session_key : Z;
  t_date : string;
  t_air_temperature : float;
  t_humidity : float;
  t_pressure : float;
  t_rainfall : float;
  t_track_temperature : float;
  t_wind_direction : float;
  t_wind_speed : float }.

(** [value == n] for an int literal [n] that a float holds exactly
    ([nf] is that float): what a literal pattern of [match] tests. *)
Definition eq_literal (value : pyval) (n : Z) (nf : float) : bool :=
  match value with
  | PInt z => z =? n
  | PBool b => (if b then 1 else 0) =? n
  | PFloat f => PrimFloat.eqb f nf
  | _ => false
  end.

(** [MiniSectorValue.from_value]. *)
Definition from_value (value : pyval) : MiniSectorValue :=
  if eq_literal value 0 0%float then {| performance := Some "Not available" |}
  else if eq_literal value 2048 2048%float then {| performance := Some "Yellow" |}
  else if eq_literal value 2049 2049%float then {| performance := Some "Green" |}
  else if eq_literal value 2051 2051%float then {| performance := Some "Purple" |}
  else if eq_literal value 2064 2064%float then {| performance := Some "Pitlane" |}
  else {| performance := Some "Unknown Performance" |}.

End F1Types.

(** ** stdio_server.py *)

Module StdioServer.

Import OpenF1Utils F1Types.

(** Iteration, subscripting and unpacking of a parsed payload
    ([None]: TypeError, KeyError or IndexError). *)
Definition py_iter (v : pyval) : option (list pyval) :=
  match v with
  | PList l => Some l
  | PDict d => Some (map (fun kv => PStr (fst kv)) d)
  | PStr s => Some (map (fun c => PStr (String c "")) (list_ascii_of_string s))
  | _ => None
  end.

Definition py_getitem (v : pyval) (k : string) : option pyval :=
  match v with
  | PDict d => dict_get k d
  | _ => None
  end.

Definition py_getitem_0 (v : pyval) : option pyval :=
  match v with
  | PList (x :: _) => Some x
  | PStr (String c _) => Some (PStr (String c ""))
  | _ => None
  end.

Definition py_mapping (v : pyval) : option (list (string * pyval)) :=
  match v with
  | PDict d => Some d
  | _ => None
  end.

Section Tools.

Variable W : Type.
Variable http_get : string -> W -> option pyval * W.

(** What this repository does not define: pydantic's validation of the
    keyword arguments of a model ([None]: ValidationError), and
    [str()] of a float, a container or an instance. *)
Variable validate_Session : list (string * pyval) -> option Session.
Variable validate_Driver : list (string * pyval) -> option Driver.
Variable validate_Lap : list (string * pyval) -> option Lap.
Variable validate_TrackConditions : list (string * pyval) -> option TrackConditions.
Variable py_repr : pyval -> string.

(** [f"{v}"]. *)
Definition py_str (v : pyval) : string :=
  match v with
  | PNone => "None"
  | PBool true => "True"
  | PBool false => "False"
  | PInt z => str_int z
  | PStr s => s
  | _ => py_repr v
  end.

(** A tool body: it makes requests, and returns or raises. *)
Definition tool (A : Type) : Type := net W -> result A * net W.

Definition ret {A} (a : A) : tool A := fun st => (Ok a, st).

Definition raise {A} : tool A := fun st => (Raise, st).

Definition bind {A B} (m : tool A) (k : A -> tool B) : tool B :=
  fun st =>
    match m st with
    | (Ok a, st') => k a st'
    | (Raise, st') => (Raise, st')
    end.

Notation "x <- m ;; k" := (bind m (fun x => k))
  (at level 61, m at next level, right associativity).

Definition fetch (url : string) : tool pyval :=
  fun st => let (v, st') := get_response http_get url st in (Ok v, st').

Definition or_raise {A} (o : option A) : tool A :=
  match o with
  | Some a => ret a
  | None => raise
  end.

(** The [for session in session_response] loop of [get_sessions];
    [sessions] is the list built so far. *)
Fixpoint get_sessions_loop (session_response : list pyval)
    (sessions : list Session) : tool (list Session) :=
  match session_response with
  | [] => ret sessions
  | session :: rest =>
      meeting_key <- or_raise (py_getitem session "meeting_key") ;;
      let url := (BASE_URL ++ "/meetings?meeting_key=" ++ py_str meeting_key)%string in
      meeting_response <- fetch url ;;
      match meeting_response with
      | PNone => get_sessions_loop rest sessions
      | _ =>
          d1 <- or_raise (py_mapping session) ;;
          m0 <- or_raise (py_getitem_0 meeting_response) ;;
          d2 <- or_raise (py_mapping m0) ;;
          let all_data := dict_merge d1 d2 in
          s <- or_raise (validate_Session all_data) ;;
          get_sessions_loop rest (sessions ++ [s])
      end
  end.

Definition get_sessions_url (date_start : string) (session_type : option string)
  : string :=
  let url := (BASE_URL ++ "/sessions?date_start>=" ++ date_start)%string in
  match session_type with
  | Some t => if truthy_str t then (url ++ "&session_type=" ++ t)%string else url
  | None => url
  end.

Definition get_sessions (date_start : string) (session_type : option string)
  : tool (list Session) :=
  session_response <- fetch (get_sessions_url date_start session_type) ;;
  match session_response with
  | PNone => ret []
  | _ =>
      l <- or_raise (py_iter session_response) ;;
      get_sessions_loop l []
  end.

(** The comprehension that builds a model from each element of [l],
    unpacked as its keyword arguments. *)
Fixpoint construct_all {A} (validate : list (string * pyval) -> option A)
    (l : list pyval) : tool (list A) :=
  match l with
  | [] => ret []
  | x :: rest =>
      d <- or_raise (py_mapping x) ;;
      a <- or_raise (validate d) ;;
      r <- construct_all validate rest ;;
      ret (a :: r)
  end.

Definition get_drivers_url (session_key : Z) (driver_number : option Z) : string :=
  let url := (BASE_URL ++ "/drivers?session_key=" ++ str_int session_key)%string in
  match driver_number with
  | Some n => if n =? 0 then url else (url ++ "&driver_number=" ++ str_int n)%string
  | None => url
  end.

Definition get_drivers (session_key : Z) (driver_number : option Z)
  : tool (list Driver) :=
  drivers_response <- fetch (get_drivers_url session_key driver_number) ;;
  match drivers_response with
  | PNone => ret []
  | _ =>
      l <- or_raise (py_iter drivers_response) ;;
      construct_all validate_Driver l
  end.

(** [[MiniSectorValue.from_value(value) for value in lap[key]]]. *)
Definition segments (lap : pyval) (key : string) : tool pyval :=
  v <- or_raise (py_getitem lap key) ;;
  l <- or_raise (py_iter v) ;;
  ret (PList (map (fun value => PMiniSectorValue (performance (from_value value))) l)).

Fixpoint get_laps_loop (laps_response : list pyval) (laps : list Lap)
  : tool (list Lap) :=
  match laps_response with
  | [] => ret laps
  | lap :: rest =>
      lap_data <- or_raise (py_mapping lap) ;;
      s1 <- segments lap "segments_sector_1" ;;
      let lap_data := dict_set "segments_sector_1" s1 lap_data in
      s2 <- segments lap "segments_sector_2" ;;
      let lap_data := dict_set "segments_sector_2" s2 lap_data in
      s3 <- segments lap "segments_sector_3" ;;
      let lap_data := dict_set "segments_sector_3" s3 lap_data in
      a <- or_raise (validate_Lap lap_data) ;;
      get_laps_loop rest (laps ++ [a])
  end.

Definition get_laps_url (session_key driver_number : Z) : string :=
  (BASE_URL ++ "/laps?session_key=" ++ str_int session_key
     ++ "&driver_number=" ++ str_int driver_number)%string.

Definition get_laps (session_key driver_number : Z) : tool (list Lap) :=
  laps_response <- fetch (get_laps_url session_key driver_number) ;;
  match laps_response with
  | PNone => ret []
  | _ =>
      l <- or_raise (py_iter laps_response) ;;
      get_laps_loop l []
  end.

Definition get_track_conditions_url (session_key : Z) (start_date : option string)
  : string :=
  let url := (BASE_URL ++ "/weather?session_key=" ++ str_int session_key)%string in
  match start_date with
  | Some d => if truthy_str d then (url ++ "&date>=" ++ d)%string else url
  | None => url
  end.

Definition get_track_conditions (session_key : Z) (start_date : option string)
  : tool (list TrackConditions) :=
  track_conditions_response <- fetch (get_track_conditions_url session_key start_date) ;;
  match track_conditions_response with
  | PNone => ret []
  | _ =>
      l <- or_raise (py_iter track_conditions_response) ;;
      construct_all validate_TrackConditions l
  end.

End Tools.

Arguments fetch {W} http_get url _.
Arguments get_sessions_loop {W} http_get validate_Session py_repr
  session_response sessions _.
Arguments get_sessions {W} http_get validate_Session py_repr
  date_start session_type _.
Arguments construct_all {W A} validate l _.
Arguments get_drivers {W} http_get validate_Driver session_key driver_number _.
Arguments get_laps_loop {W} validate_Lap laps_response laps _.
Arguments get_laps {W} http_get validate_Lap session_key driver_number _.
Arguments get_track_conditions {W} http_get validate_TrackConditions
  session_key start_date _.

End StdioServer.

(** ** client.py *)

Module Client.

Inductive role : Type := user | assistant.

(** The dicts that [process_query] puts inside a message's content. *)
Inductive block : Type :=
| text_block (text : string)
| tool_use_block (id name : string) (input : pyval)
| tool_result_block (tool_use_id content : string).

(** A message's content is a plain string or a list of blocks. *)
Inductive content : Type :=
| content_str (s : string)
| content_blocks (l : list block).

Record message : Type := mk_message { msg_role : role; msg_content : content }.

(** An element of [response.content]: its [type] is ["text"],
    ["tool_use"] or something else; [tu_text] is the [text] attribute of
    a tool-use element, [None] when it has none. *)
Inductive response_block : Type :=
| TextBlock (text : string)
| ToolUseBlock (id name : string) (input : pyval) (tu_text : option string)
| OtherBlock.

(** A tool as [list_tools] reports it. *)
Record Tool : Type := mk_Tool {
  tool_name : string;
  tool_description : pyval;
  tool_inputSchema : pyval }.

(** What [process_query] does, in order: a message appended to
    [self.messages], a call of [list_tools], a call of the model with the
    history sent and the blocks received, a line printed, the notice
    printed before a tool is called, and the call of the tool. *)
Inductive event : Type :=
| ev_append (m : message)
| ev_list_tools
| ev_create (sent : list message) (response : list response_block)
| ev_print (s : string)
| ev_notice (name : string) (input : pyval)
| ev_call_tool (name : string) (input : pyval).

Definition newline : string := String "010"%char "".

Definition text_message (text : string) : message :=
  mk_message assistant (content_str text).

Definition query_message (query : string) : message :=
  mk_message user (content_str query).

Definition is_create (e : event) : bool :=
  match e with ev_create _ _ => true | _ => false end.

Definition is_call_tool (e : event) : bool :=
  match e with ev_call_tool _ _ => true | _ => false end.

Definition is_tool_use (c : response_block) : bool :=
  match c with ToolUseBlock _ _ _ _ => true | _ => false end.

Definition is_text (c : response_block) : bool :=
  match c with TextBlock _ => true | _ => false end.

(** The number of calls of the model, and of tools, in a log. *)
Definition inferences (l : list event) : nat := List.length (filter is_create l).

Definition executions (l : list event) : nat := List.length (filter is_call_tool l).

(** The number of tool-use blocks of a response. *)
Definition tool_uses (r : list response_block) : nat :=
  List.length (filter is_tool_use r).

(** The tool that a block of a response asks for, if any. *)
Definition block_call (c : response_block) : list (string * pyval) :=
  match c with
  | ToolUseBlock _ name input _ => [(name, input)]
  | _ => []
  end.

(** The tools called, and the tools that the responses received asked
    for, read off a log in its order. *)
Fixpoint called (l : list event) : list (string * pyval) :=
  match l with
  | [] => []
  | ev_call_tool name input :: l' => (name, input) :: called l'
  | _ :: l' => called l'
  end.

Fixpoint asked (l : list event) : list (string * pyval) :=
  match l with
  | [] => []
  | ev_create _ response :: l' => flat_map block_call response ++ asked l'
  | _ :: l' => asked l'
  end.

(** The messages appended, read off a log. *)
Fixpoint appended (l : list event) : list message :=
  match l with
  | [] => []
  | ev_append m :: l' => m :: appended l'
  | _ :: l' => appended l'
  end.

(** The tool uses that a message holds. *)
Fixpoint block_uses (l : list block) : list (string * string * pyval) :=
  match l with
  | [] => []
  | tool_use_block id name input :: l' => (id, name, input) :: block_uses l'
  | _ :: l' => block_uses l'
  end.

Definition uses (m : message) : list (string * string * pyval) :=
  match msg_content m with
  | content_str _ => []
  | content_blocks l => block_uses l
  end.

(** The message that answers the tool use [id] with [content]. *)
Definition tool_result (id content : string) : message :=
  mk_message user (content_blocks [tool_result_block id content]).

(** An event that does not append a message holding a tool use. *)
Definition quiet (e : event) : Prop :=
  match e with
  | ev_append m => uses m = []
  | _ => True
  end.

(** The logs in which every message that holds a tool use holds exactly
    one, and its appending is followed at once by the notice, the call of
    that tool, and the appending of the result message for its id. *)
Inductive answered : list event -> Prop :=
| answered_nil : answered []
| answered_quiet (e : event) (l : list event) :
    quiet e -> answered l -> answered (e :: l)
| answered_tool (m : message) (id name : string) (input : pyval)
    (r : string) (l : list event) :
    uses m = [(id, name, input)] ->
    answered l ->
    answered (ev_append m :: ev_notice name input :: ev_call_tool name input
                :: ev_append (tool_result id r) :: l).

Section Orchestrator.

(** The model endpoint and the tool session, as one state. [create] is
    [anthropic.messages.create] followed by [.content]; [call_tool]
    yields the [text] of each element of [result.content]. Both are
    taken to return; the tool session whose call, or the reading of whose
    result, raises is that of [Fallible] below. *)
Variable World : Type.
Variable create :
  string -> list message -> list (list (string * pyval)) -> Z -> World ->
  list response_block * World.
Variable list_tools : World -> list Tool * World.
Variable call_tool : string -> pyval -> World -> list string * World.

(** [self.messages], the outside, the log of this query, and the two
    locals of [process_query]. *)
Record state : Type := mk_state {
  messages : list message;
  world : World;
  log : list event;
  done : bool;
  tool_calls : Z }.

Definition emit (e : event) (s : state) : state :=
  mk_state (messages s) (world s) (log s ++ [e]) (done s) (tool_calls s).

Definition append (m : message) (s : state) : state :=
  mk_state (messages s ++ [m]) (world s) (log s ++ [ev_append m]) (done s)
    (tool_calls s).

Definition set_world (w : World) (s : state) : state :=
  mk_state (messages s) w (log s) (done s) (tool_calls s).

Definition set_done (b : bool) (s : state) : state :=
  mk_state (messages s) (world s) (log s) b (tool_calls s).

Definition incr_tool_calls (s : state) : state :=
  mk_state (messages s) (world s) (log s) (done s) (tool_calls s + 1).

Definition get_anthropic_response (msgs : list message)
    (tools : list (list (string * pyval))) (max_tokens : Z) (w : World)
  : list response_block * World :=
  create "claude-3-7-sonnet-20250219" msgs tools max_tokens w.

Definition no_response : string := "No response from tool".

(** The body of [for content in response.content]. *)
Definition handle_block (s : state) (c : response_block) : state :=
  match c with
  | TextBlock text =>
      let s := emit (ev_print (text ++ newline)) s in
      append (text_message text) s
  | ToolUseBlock tool_use_id tool_name tool_args tu_text =>
      let s := set_done false s in
      let '(current_content, s) :=
        match tu_text with
        | Some t =>
            if truthy_str t
            then ([text_block t], emit (ev_print (t ++ newline)) s)
            else ([], s)
        | None => ([], s)
        end in
      let current_content :=
        current_content ++ [tool_use_block tool_use_id tool_name tool_args] in
      let s := append (mk_message assistant (content_blocks current_content)) s in
      let s := emit (ev_notice tool_name tool_args) s in
      let '(texts, w) := call_tool tool_name tool_args (world s) in
      let s := emit (ev_call_tool tool_name tool_args) (set_world w s) in
      let result_content := join_space texts in
      let s := incr_tool_calls s in
      if truthy_str result_content
      then append (tool_result tool_use_id result_content) s
      else set_done true (append (tool_result tool_use_id no_response) s)
  | OtherBlock => s
  end.

(** One pass through the body of the [while] loop. *)
Definition round (available_tools : list (list (string * pyval))) (s : state)
  : state :=
  let '(response, w) :=
    get_anthropic_response (messages s) available_tools 1000 (world s) in
  let s := emit (ev_create (messages s) response) (set_world w s) in
  let s := set_done true s in
  fold_left handle_block response s.

Definition guard (max_tool_calls : Z) (s : state) : bool :=
  negb (done s) && (tool_calls s <? max_tool_calls).

(** What is left of the budget while the loop may still run. *)
Definition budget (max_tool_calls : Z) (s : state) : nat :=
  if done s then 0%nat else Z.to_nat (max_tool_calls - tool_calls s).

Lemma handle_block_tool_calls (s : state) (c : response_block) :
  match c with
  | ToolUseBlock _ _ _ _ => tool_calls (handle_block s c) = tool_calls s + 1
  | _ => tool_calls (handle_block s c) = tool_calls s
         /\ done (handle_block s c) = done s
  end.
Proof.
  destruct c as [text | id name input tu | ]; cbn; auto.
  destruct tu as [t | ]; [destruct (truthy_str t) | ]; cbn;
    destruct (call_tool name input _) as [texts w]; cbn;
    destruct (truthy_str (join_space texts)); reflexivity.
Qed.

(** A response never lowers the counter, and one that leaves [done]
    false has raised it. *)
Lemma for_loop_progress (response : list response_block) (s : state) :
  tool_calls s <= tool_calls (fold_left handle_block response s)
  /\ (done s = true -> done (fold_left handle_block response s) = false ->
      tool_calls s < tool_calls (fold_left handle_block response s)).
Proof.
  revert s. induction response as [ | c rest IH]; intros s; cbn.
  - split; [lia | congruence].
  - destruct (IH (handle_block s c)) as [Hle Hlt].
    pose proof (handle_block_tool_calls s c) as Hc.
    destruct c as [text | id name input tu | ]; cbn beta iota in Hc.
    + destruct Hc as [Hc Hd]. split; [lia | ].
      intros H1 H2. rewrite <- Hc. apply Hlt; congruence.
    + split; intros; lia.
    + destruct Hc as [Hc Hd]. split; [lia | ].
      intros H1 H2. rewrite <- Hc. apply Hlt; congruence.
Qed.

Lemma round_progress (tools : list (list (string * pyval))) (s : state) :
  tool_calls s <= tool_calls (round tools s)
  /\ (done (round tools s) = false -> tool_calls s < tool_calls (round tools s)).
Proof.
  unfold round.
  destruct (get_anthropic_response _ _ _ _) as [response w].
  match goal with
  | |- context [fold_left handle_block response ?s0] =>
      destruct (for_loop_progress response s0) as [Hle Hlt]
  end.
  cbn in *. split; [exact Hle | intros Hd; apply Hlt; auto].
Qed.

(** The [while not done and tool_calls < max_tool_calls] loop. *)
Equations? while_loop (available_tools : list (list (string * pyval)))
    (max_tool_calls : Z) (s : state) : state
  by wf (budget max_tool_calls s) lt :=
  while_loop available_tools max_tool_calls s
    with Logic.inspect (guard max_tool_calls s) := {
    | exist _ true Hguard =>
        while_loop available_tools max_tool_calls (round available_tools s)
    | exist _ false Hguard => s }.
Proof.
  unfold guard in Hguard. apply andb_prop in Hguard as [Hd Hlt].
  apply negb_true_iff in Hd. apply Z.ltb_lt in Hlt.
  destruct (round_progress available_tools s) as [Hle Hpr].
  unfold budget. rewrite Hd.
  destruct (done (round available_tools s)) eqn:Hd'; [lia | ].
  specialize (Hpr eq_refl). lia.
Qed.

Definition available_tool (t : Tool) : list (string * pyval) :=
  [("name", PStr (tool_name t));
   ("description", tool_description t);
   ("input_schema", tool_inputSchema t)].

(** [process_query], run on a session whose history is [history]. The
    result holds the new history, the final value of [tool_calls], and
    the log of what was done. *)
Definition process_query (query : string) (max_tool_calls : Z)
    (history : list message) (w : World) : state :=
  let s := mk_state history w [] false 0 in
  let s := append (query_message query) s in
  let '(tools, w) := list_tools (world s) in
  let s := emit ev_list_tools (set_world w s) in
  let available_tools := map available_tool tools in
  let s := set_done false s in
  while_loop available_tools max_tool_calls s.

(** The blocks that the first call of the model returns. *)
Definition first_response (query : string) (history : list message) (w : World)
  : list response_block :=
  fst (get_anthropic_response (history ++ [query_message query])
         (map available_tool (fst (list_tools w))) 1000 (snd (list_tools w))).

End Orchestrator.

Arguments first_response {World} create list_tools query history w.
Arguments messages {World} s.
Arguments world {World} s.
Arguments log {World} s.
Arguments done {World} s.
Arguments tool_calls {World} s.
Arguments mk_state {World} messages world log done tool_calls.
Arguments emit {World} e s.
Arguments append {World} m s.
Arguments set_world {World} w s.
Arguments set_done {World} b s.
Arguments incr_tool_calls {World} s.
Arguments get_anthropic_response {World} create msgs tools max_tokens w.
Arguments handle_block {World} call_tool s c.
Arguments round {World} create call_tool available_tools s.
Arguments guard {World} max_tool_calls s.
Arguments budget {World} max_tool_calls s.
Arguments while_loop {World} create call_tool available_tools max_tool_calls s.
Arguments process_query {World} create list_tools call_tool query
  max_tool_calls history w.

(** [s.endswith(suffix)]. *)
Fixpoint endswith (s suffix : string) : bool :=
  if String.eqb s suffix then true
  else
    match s with
    | EmptyString => false
    | String _ s' => endswith s' suffix
    end.

(** The head of [connect_to_server]: the check of the script path and
    the choice of the command, up to the [StdioServerParameters] it
    builds (the command and its arguments; [env] is [None]). What follows
    it, opening the transport and the session, is outside this
    repository. *)
Definition server_params (server_script_path : string)
  : result (string * list string) :=
  let is_python := endswith server_script_path ".py" in
  let is_js := endswith server_script_path ".js" in
  if negb (is_python || is_js) then Raise
  else
    let command := if is_python then ".env/bin/python" else "node" in
    Ok (command, [server_script_path]).

End Client.

(** * Scenarios

    Concrete outsides, on which the definitions above are run. *)

Module Scenario.

Import OpenF1Utils F1Types StdioServer.

(** An endpoint that counts the requests it has seen, fails the first
    [k] of them and answers every later one with [payload]. *)
Definition flaky (k : nat) (payload : pyval) (url : string) (n : nat)
  : option pyval * nat :=
  (if (n <? k)%nat then None else Some payload, S n).

(** An endpoint that never answers. *)
Definition down (url : string) (w : unit) : option pyval * unit := (None, w).

(** A validator for [Session] that accepts fields of exactly the declared
    types, which pydantic accepts too. *)
Definition opt_str (o : option pyval) : option (option string) :=
  match o with
  | None | Some PNone => Some None
  | Some (PStr s) => Some (Some s)
  | _ => None
  end.

Definition exact_Session (d : list (string * pyval)) : option Session :=
  match dict_get "session_key" d, dict_get "session_name" d,
        dict_get "session_type" d, dict_get "date_start" d,
        opt_str (dict_get "date_end" d), dict_get "meeting_key" d,
        dict_get "circuit_short_name" d, dict_get "country_name" d,
        opt_str (dict_get "meeting_official_name" d) with
  | Some (PInt sk), Some (PStr sn), Some (PStr ty), Some (PStr ds), Some de,
    Some (PInt mk), Some (PStr cs), Some (PStr cn), Some mo =>
      if existsb (String.eqb ty) ["Qualifying"; "Practice"; "Race"]
      then Some (Build_Session sk sn ty ds de mk cs cn mo)
      else None
  | _, _, _, _, _, _, _, _, _ => None
  end.

Definition session_row (session_key meeting_key : Z) : pyval :=
  PDict [("session_key", PInt session_key);
         ("session_name", PStr "Race");
         ("session_type", PStr "Race");
         ("date_start", PStr "2024-03-02T15:00:00+00:00");
         ("meeting_key", PInt meeting_key)].

Definition meeting_row (meeting_key : Z) : pyval :=
  PDict [("meeting_key", PInt meeting_key);
         ("circuit_short_name", PStr "Sakhir");
         ("country_name", PStr "Bahrain");
         ("meeting_official_name", PStr "Bahrain Grand Prix")].

(** An endpoint that lists two sessions, of meetings 1 and 2, answers for
    meeting 2 and fails every request for meeting 1. *)
Definition openf1 (url : string) (w : unit) : option pyval * unit :=
  if String.eqb url (get_sessions_url "2024-03-01" None)
  then (Some (PList [session_row 9001 1; session_row 9002 2]), w)
  else if String.eqb url (BASE_URL ++ "/meetings?meeting_key=2")
  then (Some (PList [meeting_row 2]), w)
  else (None, w).

Definition no_repr (v : pyval) : string := "".

(** A validator for [Driver] of the same kind, and a row that it
    accepts. *)
Definition exact_Driver (d : list (string * pyval)) : option Driver :=
  match dict_get "broadcast_name" d, dict_get "driver_number" d,
        dict_get "first_name" d, dict_get "last_name" d,
        dict_get "name_acronym" d, dict_get "team_name" d,
        dict_get "team_colour" d, dict_get "headshot_url" d with
  | Some (PStr bn), Some (PInt dn), Some (PStr fn), Some (PStr ln),
    Some (PStr na), Some (PStr tn), Some (PStr tc), Some PNone =>
      Some (Build_Driver bn dn fn ln na tn (Some tc) None)
  | _, _, _, _, _, _, _, _ => None
  end.

Definition driver_row (number : Z) (first last acronym : string) : pyval :=
  PDict [("broadcast_name", PStr last);
         ("driver_number", PInt number);
         ("first_name", PStr first);
         ("last_name", PStr last);
         ("name_acronym", PStr acronym);
         ("team_name", PStr "Mercedes");
         ("team_colour", PStr "27F4D2");
         ("headshot_url", PNone)].

Import Client.

(** A model that replies with the next response of a script, and with
    nothing once the script is over. *)
Definition scripted (model : string) (msgs : list message)
    (tools : list (list (string * pyval))) (max_tokens : Z)
    (w : list (list response_block))
  : list response_block * list (list response_block) :=
  match w with
  | r :: w' => (r, w')
  | [] => ([], [])
  end.

(** A model that asks for the clock on every call. *)
Definition eager (model : string) (msgs : list message)
    (tools : list (list (string * pyval))) (max_tokens : Z) (w : unit)
  : list response_block * unit :=
  ([ToolUseBlock "tu_1" "get_current_date_and_time" (PDict []) None], w).

(** A session with one tool listed; the tool named [silent] returns no
    content, every other one a single text. *)
Definition one_tool {World : Type} (w : World) : list Tool * World :=
  ([mk_Tool "get_current_date_and_time" (PStr "A clock") (PDict [])], w).

Definition answering {World : Type} (name : string) (input : pyval) (w : World)
  : list string * World :=
  (if String.eqb name "silent" then [] else ["2024-03-02T15:00:00"], w).

(** A session in which every tool returns the time. *)
Definition clock {World : Type} (name : string) (input : pyval) (w : World)
  : list string * World :=
  (["2024-03-02T15:00:00"], w).

End Scenario.

(** * Properties *)

(** ** The retrying fetch *)

Section FetchFacts.

Import OpenF1Utils.

Variable W : Type.
Variable http_get : string -> W -> option pyval * W.

Lemma get_response_loop_unfold (url : string) (retries : Z) (st : net W) :
  get_response_loop http_get url retries st =
  if retries <? max_retries then
    match attempt http_get url st with
    | (Some payload, st') => (payload, st')
    | (None, st') =>
        if retries + 1 =? max_retries then (PNone, st')
        else get_response_loop http_get url (retries + 1) st'
    end
  else (PNone, st).
Proof.
  rewrite get_response_loop_equation_1.
  destruct (Logic.inspect (retries <? max_retries)) as [[] Hguard]; cbn;
    rewrite Hguard; reflexivity.
Qed.

Lemma fails_k_snoc (k : nat) (url : string) (w w' : W) :
  fails_k http_get (S k) url w w' <->
  exists w1, fails_k http_get k url w w1 /\ http_get url w1 = (None, w').
Proof.
  revert w. induction k as [ | k IH]; intros w.
  - cbn. split.
    + intros (w1 & Hget & ->). exists w. auto.
    + intros (w1 & -> & Hget). exists w'. auto.
  - change (fails_k http_get (S (S k)) url w w')
      with (exists w1, http_get url w = (None, w1)
                       /\ fails_k http_get (S k) url w1 w').
    split.
    + intros (w1 & Hget & Hrest). apply IH in Hrest as (w2 & Hk & Hlast).
      exists w2. split; [ | exact Hlast]. exists w1. auto.
    + intros (w2 & (w1 & Hget & Hk) & Hlast).
      exists w1. split; [exact Hget | ]. apply IH. exists w2. auto.
Qed.

(** Failures that do not exhaust the retries only advance the counter. *)
Lemma get_response_loop_failures (k : nat) (url : string) :
  forall (retries : Z) (st : net W) (w1 : W),
    fails_k http_get k url (env st) w1 ->
    retries + Z.of_nat k < max_retries ->
    get_response_loop http_get url retries st =
    get_response_loop http_get url (retries + Z.of_nat k)
      (mk_net w1 (attempts st ++ repeat url k)).
Proof.
  induction k as [ | k IH]; intros retries st w1 Hfail Hlt.
  - cbn in Hfail. subst w1. cbn [repeat]. rewrite app_nil_r, Z.add_0_r.
    destruct st; reflexivity.
  - destruct Hfail as (w0 & Hget & Hrest).
    rewrite get_response_loop_unfold.
    replace (retries <? max_retries) with true by (symmetry; apply Z.ltb_lt; lia).
    unfold attempt at 1. rewrite Hget.
    replace (retries + 1 =? max_retries) with false
      by (symmetry; apply Z.eqb_neq; lia).
    rewrite (IH (retries + 1) (mk_net w0 (attempts st ++ [url])) w1);
      [ | exact Hrest | lia].
    cbn [attempts]. rewrite <- app_assoc. cbn [app repeat].
    f_equal. lia.
Qed.

(** C5. If the request fails [k] times and then succeeds, with
    [k < max_retries], [get_response] makes exactly [k + 1] attempts and
    returns the parsed payload; if it fails [max_retries] times,
    [get_response] makes exactly [max_retries] attempts and returns
    [None]. The function is total: no exception leaves it. *)
Theorem get_response_attempts (url : string) (st : net W) (k : nat) (w1 : W) :
  fails_k http_get k url (env st) w1 ->
  (forall (payload : pyval) (w2 : W),
      Z.of_nat k < max_retries ->
      http_get url w1 = (Some payload, w2) ->
      get_response http_get url st
      = (payload, mk_net w2 (attempts st ++ repeat url (S k))))
  /\ (Z.of_nat k = max_retries ->
      get_response http_get url st
      = (PNone, mk_net w1 (attempts st ++ repeat url (Z.to_nat max_retries)))).
Proof.
  intros Hfail. split.
  - intros payload w2 Hlt Hget. unfold get_response.
    rewrite (get_response_loop_failures k url 0 st w1 Hfail) by lia.
    rewrite get_response_loop_unfold.
    replace (0 + Z.of_nat k <? max_retries) with true
      by (symmetry; apply Z.ltb_lt; lia).
    unfold attempt. cbn [env attempts]. rewrite Hget.
    rewrite <- app_assoc, <- repeat_cons. reflexivity.
  - intros Hk. unfold max_retries in Hk.
    destruct k as [ | k]; [discriminate | ].
    apply fails_k_snoc in Hfail as (w0 & Hfail & Hlast).
    unfold get_response.
    rewrite (get_response_loop_failures k url 0 st w0 Hfail)
      by (unfold max_retries; lia).
    rewrite get_response_loop_unfold.
    replace (0 + Z.of_nat k <? max_retries) with true
      by (symmetry; apply Z.ltb_lt; unfold max_retries; lia).
    unfold attempt. cbn [env attempts]. rewrite Hlast.
    replace (0 + Z.of_nat k + 1 =? max_retries) with true
      by (symmetry; apply Z.eqb_eq; unfold max_retries; lia).
    rewrite <- app_assoc, <- repeat_cons.
    replace (Z.to_nat max_retries) with (S k) by (unfold max_retries; lia).
    reflexivity.
Qed.

End FetchFacts.


(** A run on an endpoint that fails twice and then answers, and a run on
    one that fails five times. *)
Lemma get_response_attempts_witness :
  OpenF1Utils.get_response (Scenario.flaky 2 (PList [])) "u" (OpenF1Utils.mk_net 0%nat [])
  = (PList [], OpenF1Utils.mk_net 3%nat ["u"; "u"; "u"])
  /\ OpenF1Utils.get_response (Scenario.flaky 5 (PList [])) "u"
       (OpenF1Utils.mk_net 0%nat [])
     = (PNone, OpenF1Utils.mk_net 5%nat ["u"; "u"; "u"; "u"; "u"]).
Proof.
  split.
  - refine (proj1 (get_response_attempts nat (Scenario.flaky 2 (PList [])) "u"
                     (OpenF1Utils.mk_net 0%nat []) 2 2%nat _) (PList []) 3%nat _ _).
    + exists 1%nat. split; [reflexivity | ].
      exists 2%nat. split; reflexivity.
    + reflexivity.
    + reflexivity.
  - refine (proj2 (get_response_attempts nat (Scenario.flaky 5 (PList [])) "u"
                     (OpenF1Utils.mk_net 0%nat []) 5 5%nat _) _).
    + exists 1%nat. split; [reflexivity | ].
      exists 2%nat. split; [reflexivity | ].
      exists 3%nat. split; [reflexivity | ].
      exists 4%nat. split; [reflexivity | ].
      exists 5%nat. split; reflexivity.
    + reflexivity.
Defined.

(** ** The tools of the server *)

Section ToolFacts.

Import OpenF1Utils F1Types StdioServer.

Variable W : Type.
Variable http_get : string -> W -> option pyval * W.
Variable validate_Session : list (string * pyval) -> option Session.
Variable validate_Driver : list (string * pyval) -> option Driver.
Variable validate_Lap : list (string * pyval) -> option Lap.
Variable validate_TrackConditions : list (string * pyval) -> option TrackConditions.
Variable py_repr : pyval -> string.

Lemma fetch_absent (url : string) (st : net W) :
  fst (get_response http_get url st) = PNone ->
  fetch http_get url st = (Ok PNone, snd (get_response http_get url st)).
Proof.
  unfold fetch. destruct (get_response http_get url st) as [v st']; cbn.
  intros ->. reflexivity.
Qed.

(** C8, as the code has it. When the request a tool makes for its list
    comes back as [None], each of [get_sessions], [get_drivers],
    [get_laps] and [get_track_conditions] returns the empty list and does
    not raise; when, inside [get_sessions], the request for one session's
    meeting comes back as [None], that session is left out and the loop
    goes on with the sessions collected so far. *)
Theorem absent_response_degrades :
  (forall date_start session_type st,
      let url := get_sessions_url date_start session_type in
      fst (get_response http_get url st) = PNone ->
      get_sessions http_get validate_Session py_repr date_start session_type st
      = (Ok [], snd (get_response http_get url st)))
  /\ (forall session_key driver_number st,
      let url := get_drivers_url session_key driver_number in
      fst (get_response http_get url st) = PNone ->
      get_drivers http_get validate_Driver session_key driver_number st
      = (Ok [], snd (get_response http_get url st)))
  /\ (forall session_key driver_number st,
      let url := get_laps_url session_key driver_number in
      fst (get_response http_get url st) = PNone ->
      get_laps http_get validate_Lap session_key driver_number st
      = (Ok [], snd (get_response http_get url st)))
  /\ (forall session_key start_date st,
      let url := get_track_conditions_url session_key start_date in
      fst (get_response http_get url st) = PNone ->
      get_track_conditions http_get validate_TrackConditions session_key
        start_date st
      = (Ok [], snd (get_response http_get url st)))
  /\ (forall session rest sessions meeting_key st,
      let url := (BASE_URL ++ "/meetings?meeting_key="
                    ++ py_str py_repr meeting_key)%string in
      py_getitem session "meeting_key" = Some meeting_key ->
      fst (get_response http_get url st) = PNone ->
      get_sessions_loop http_get validate_Session py_repr (session :: rest)
        sessions st
      = get_sessions_loop http_get validate_Session py_repr rest sessions
          (snd (get_response http_get url st))).
Proof.
  repeat split; intros.
  - unfold get_sessions, bind. rewrite fetch_absent by assumption. reflexivity.
  - unfold get_drivers, bind. rewrite fetch_absent by assumption. reflexivity.
  - unfold get_laps, bind. rewrite fetch_absent by assumption. reflexivity.
  - unfold get_track_conditions, bind. rewrite fetch_absent by assumption.
    reflexivity.
  - cbn [get_sessions_loop]. unfold bind at 1. rewrite H. cbn [or_raise ret].
    unfold bind at 1. fold url. rewrite fetch_absent by assumption. reflexivity.
Qed.

End ToolFacts.

(** On an endpoint that is down every tool returns the empty list. *)
Lemma absent_response_degrades_witness :
  fst (StdioServer.get_drivers Scenario.down (fun _ => None) 9158 (Some 44)
         (OpenF1Utils.mk_net tt []))
  = Ok [].
Proof.
  rewrite (proj1 (proj2 (absent_response_degrades unit Scenario.down
                           (fun _ => None) (fun _ => None) (fun _ => None)
                           (fun _ => None) Scenario.no_repr))
             9158 (Some 44) (OpenF1Utils.mk_net tt []) eq_refl).
  reflexivity.
Defined.

(** C8 as stated fails: [get_response] hands [None] to [get_sessions]
    for the meeting of the first session, and [get_sessions] returns a
    list that is not empty. *)
Lemma get_sessions_absent_meeting_not_empty :
  let st0 := OpenF1Utils.mk_net tt [] in
  let st1 :=
    snd (OpenF1Utils.get_response Scenario.openf1
           (StdioServer.get_sessions_url "2024-03-01" None) st0) in
  fst (OpenF1Utils.get_response Scenario.openf1
         "https://api.openf1.org/v1/meetings?meeting_key=1" st1) = PNone
  /\ OpenF1Utils.attempts
       (snd (OpenF1Utils.get_response Scenario.openf1
               "https://api.openf1.org/v1/meetings?meeting_key=1" st1))
     = OpenF1Utils.attempts st1
         ++ repeat "https://api.openf1.org/v1/meetings?meeting_key=1" 5
  /\ fst (StdioServer.get_sessions Scenario.openf1 Scenario.exact_Session
            Scenario.no_repr "2024-03-01" None st0)
     = Ok [F1Types.Build_Session 9002 "Race" "Race" "2024-03-02T15:00:00+00:00"
             None 2 "Sakhir" "Bahrain" (Some "Bahrain Grand Prix")]
  /\ fst (StdioServer.get_sessions Scenario.openf1 Scenario.exact_Session
            Scenario.no_repr "2024-03-01" None st0)
     <> Ok [].
Proof.
  vm_compute. repeat split. discriminate.
Qed.

(** ** The conversation loop *)

Section OrchestratorFacts.

Import Client.

Variable World : Type.
Variable create :
  string -> list message -> list (list (string * pyval)) -> Z -> World ->
  list response_block * World.
Variable list_tools : World -> list Tool * World.
Variable call_tool : string -> pyval -> World -> list string * World.

Abbreviation state := (state World).
Abbreviation handle := (handle_block call_tool).
Abbreviation loop := (while_loop create call_tool).
Abbreviation run := (process_query create list_tools call_tool).

(** *** Logs *)

Lemma inferences_app (l1 l2 : list event) :
  inferences (l1 ++ l2) = (inferences l1 + inferences l2)%nat.
Proof. unfold inferences. rewrite filter_app, length_app. reflexivity. Qed.

Lemma executions_app (l1 l2 : list event) :
  executions (l1 ++ l2) = (executions l1 + executions l2)%nat.
Proof. unfold executions. rewrite filter_app, length_app. reflexivity. Qed.

Lemma appended_app (l1 l2 : list event) :
  appended (l1 ++ l2) = appended l1 ++ appended l2.
Proof.
  induction l1 as [ | e l1 IH]; cbn; [reflexivity | ].
  destruct e; cbn; rewrite IH; reflexivity.
Qed.

Lemma answered_app (l1 l2 : list event) :
  answered l1 -> answered l2 -> answered (l1 ++ l2).
Proof.
  intros H1 H2. induction H1 as [ | e l Hq _ IH | m id name input r l Hm _ IH].
  - exact H2.
  - cbn. apply answered_quiet; assumption.
  - cbn. apply answered_tool; assumption.
Qed.

(** In an answered log, what follows the appending of a tool use. *)
Lemma answered_split (l : list event) :
  answered l ->
  forall pre m post id name input,
    l = pre ++ ev_append m :: post ->
    In (id, name, input) (uses m) ->
    exists r post',
      post = ev_notice name input :: ev_call_tool name input
               :: ev_append (tool_result id r) :: post'.
Proof.
  induction 1 as [ | e l Hq _ IH | m0 id0 name0 input0 r0 l Hm _ IH];
    intros pre m post id name input Heq Hin.
  - destruct pre; discriminate.
  - destruct pre as [ | e' pre]; cbn in Heq; injection Heq as -> Hl.
    + cbn in Hq. rewrite Hq in Hin. contradiction.
    + eapply IH; eauto.
  - destruct pre as [ | e1 [ | e2 [ | e3 [ | e4 pre]]]]; cbn in Heq.
    + injection Heq as <- <-. rewrite Hm in Hin.
      destruct Hin as [Hu | []]. injection Hu as <- <- <-.
      exists r0, l. reflexivity.
    + discriminate.
    + discriminate.
    + injection Heq as _ _ _ <- _. cbn in Hin. contradiction.
    + injection Heq as _ _ _ _ Hl. eapply IH; eauto.
Qed.

(** [extends s s' ext]: [s'] is [s] after the events [ext], which append
    the messages they say, count one tool call for each call of a tool,
    and answer every tool use. *)
Definition extends (s s' : state) (ext : list event) : Prop :=
  log s' = log s ++ ext
  /\ messages s' = messages s ++ appended ext
  /\ tool_calls s' = tool_calls s + Z.of_nat (executions ext)
  /\ answered ext.

Lemma extends_refl (s : state) : extends s s [].
Proof.
  unfold extends. cbn. rewrite !app_nil_r, Z.add_0_r.
  repeat split. constructor.
Qed.

Lemma extends_trans (s1 s2 s3 : state) (e1 e2 : list event) :
  extends s1 s2 e1 -> extends s2 s3 e2 -> extends s1 s3 (e1 ++ e2).
Proof.
  intros (Hl1 & Hm1 & Ht1 & Ha1) (Hl2 & Hm2 & Ht2 & Ha2).
  unfold extends.
  rewrite Hl2, Hl1, Hm2, Hm1, Ht2, Ht1, appended_app, executions_app, !app_assoc.
  repeat split; [lia | apply answered_app; assumption].
Qed.

(** *** One block *)

Lemma handle_block_extends (s : state) (c : response_block) :
  exists ext,
    extends s (handle s c) ext
    /\ inferences ext = 0%nat
    /\ executions ext = (if is_tool_use c then 1 else 0)%nat.
Proof.
  destruct c as [text | id name input tu | ].
  - exists [ev_print (text ++ newline); ev_append (text_message text)].
    unfold extends. cbn. rewrite <- !app_assoc, Z.add_0_r. cbn.
    repeat split. repeat constructor.
  - assert (Hcases :
      exists (pre : list block) (prints : list event),
        (match tu with
         | Some t =>
             if truthy_str t
             then ([text_block t], emit (ev_print (t ++ newline)) (set_done false s))
             else ([], set_done false s)
         | None => ([], set_done false s)
         end)
        = (pre, mk_state (messages s) (world s) (log s ++ prints) false
                  (tool_calls s))
        /\ block_uses pre = [] /\ Forall quiet prints
        /\ appended prints = [] /\ inferences prints = 0%nat
        /\ executions prints = 0%nat).
    { destruct tu as [t | ]; [destruct (truthy_str t) | ].
      - exists [text_block t], [ev_print (t ++ newline)]. cbn.
        repeat split. repeat constructor.
      - exists [], []. cbn. rewrite app_nil_r. repeat split. constructor.
      - exists [], []. cbn. rewrite app_nil_r. repeat split. constructor. }
    destruct Hcases as (pre & prints & Hpre & Hu & Hq & Ha & Hi & He).
    set (m := mk_message assistant
                (content_blocks (pre ++ [tool_use_block id name input]))).
    set (r := join_space (fst (call_tool name input (world s)))).
    exists (prints ++ [ev_append m; ev_notice name input; ev_call_tool name input;
                       ev_append (tool_result id
                                    (if truthy_str r then r else no_response))]).
    assert (Hm : uses m = [(id, name, input)]).
    { subst m. unfold uses. cbn [msg_content]. clear - Hu.
      induction pre as [ | b pre IH]; cbn in *; [reflexivity | ].
      destruct b; try discriminate; auto. }
    assert (Hans : answered
              (prints ++ [ev_append m; ev_notice name input;
                          ev_call_tool name input;
                          ev_append (tool_result id
                                       (if truthy_str r then r else no_response))])).
    { clear - Hq Hm. induction Hq as [ | e l He _ IH]; cbn.
      - apply answered_tool; [exact Hm | constructor].
      - apply answered_quiet; assumption. }
    cbn [is_tool_use]. rewrite inferences_app, executions_app, Hi, He.
    split; [ | split; reflexivity].
    unfold extends. rewrite appended_app, executions_app, Ha, He.
    cbn [handle_block]. rewrite Hpre. cbn -[join_space truthy_str].
    subst r. destruct (call_tool name input (world s)) as [texts w].
    cbn -[join_space truthy_str].
    cbn [fst] in Hans.
    destruct (truthy_str (join_space texts)); cbn -[join_space truthy_str];
      rewrite <- !app_assoc; (split; [ | split; [ | split]]);
      try reflexivity; exact Hans.
  - exists []. split; [apply extends_refl | split; reflexivity].
Qed.

(** *** One response, one round, the loop *)

Lemma tool_uses_cons (c : response_block) (r : list response_block) :
  tool_uses (c :: r) = ((if is_tool_use c then 1 else 0) + tool_uses r)%nat.
Proof. unfold tool_uses. cbn. destruct (is_tool_use c); reflexivity. Qed.

Lemma for_loop_extends (r : list response_block) (s : state) :
  exists ext,
    extends s (fold_left handle r s) ext
    /\ inferences ext = 0%nat
    /\ executions ext = tool_uses r.
Proof.
  revert s. induction r as [ | c r IH]; intros s.
  - exists []. split; [apply extends_refl | split; reflexivity].
  - destruct (handle_block_extends s c) as (e1 & H1 & I1 & E1).
    destruct (IH (handle s c)) as (e2 & H2 & I2 & E2).
    exists (e1 ++ e2). cbn [fold_left].
    rewrite inferences_app, executions_app, tool_uses_cons, I1, I2, E1, E2.
    split; [eapply extends_trans; eassumption | split; reflexivity].
Qed.

Lemma round_extends (tools : list (list (string * pyval))) (s : state) :
  let r := fst (get_anthropic_response create (messages s) tools 1000 (world s)) in
  exists ext,
    extends s (round create call_tool tools s) (ev_create (messages s) r :: ext)
    /\ inferences ext = 0%nat
    /\ executions ext = tool_uses r.
Proof.
  unfold round.
  destruct (get_anthropic_response create (messages s) tools 1000 (world s))
    as [r w]. cbn [fst].
  match goal with
  | |- context [fold_left handle r ?s0] =>
      destruct (for_loop_extends r s0) as (ext & (Hl & Hm & Ht & Ha) & Hi & He)
  end.
  exists ext. split; [ | split; assumption].
  unfold extends. rewrite Hl, Hm, Ht. cbn. rewrite <- app_assoc. cbn.
  repeat split. apply answered_quiet; [exact I | exact Ha].
Qed.

Lemma round_budget (tools : list (list (string * pyval))) (max_tool_calls : Z)
    (s : state) :
  guard max_tool_calls s = true ->
  (budget max_tool_calls (round create call_tool tools s)
   < budget max_tool_calls s)%nat.
Proof.
  unfold guard. intros Hguard. apply andb_prop in Hguard as [Hd Hlt].
  apply negb_true_iff in Hd. apply Z.ltb_lt in Hlt.
  destruct (round_progress World create call_tool tools s) as [Hle Hpr].
  unfold budget. rewrite Hd.
  destruct (done (round create call_tool tools s)); [lia | ].
  specialize (Hpr eq_refl). lia.
Qed.

Lemma while_loop_unfold (tools : list (list (string * pyval)))
    (max_tool_calls : Z) (s : state) :
  loop tools max_tool_calls s =
  if guard max_tool_calls s
  then loop tools max_tool_calls (round create call_tool tools s)
  else s.
Proof.
  rewrite while_loop_equation_1.
  destruct (Logic.inspect (guard max_tool_calls s)) as [[] Hguard]; cbn;
    rewrite Hguard; reflexivity.
Qed.

(** Induction along the rounds of the loop. *)
Lemma while_loop_ind (tools : list (list (string * pyval)))
    (max_tool_calls : Z) (P : state -> state -> Prop) :
  (forall s, guard max_tool_calls s = false -> P s s) ->
  (forall s,
      guard max_tool_calls s = true ->
      P (round create call_tool tools s)
        (loop tools max_tool_calls (round create call_tool tools s)) ->
      P s (loop tools max_tool_calls (round create call_tool tools s))) ->
  forall s, P s (loop tools max_tool_calls s).
Proof.
  intros Hstop Hstep s.
  remember (budget max_tool_calls s) as n eqn:Hn. revert s Hn.
  induction n as [n IH] using lt_wf_ind. intros s Hn.
  rewrite while_loop_unfold. destruct (guard max_tool_calls s) eqn:Hguard.
  - apply Hstep; [exact Hguard | ].
    apply (IH (budget max_tool_calls (round create call_tool tools s)));
      [subst n; apply round_budget; exact Hguard | reflexivity].
  - apply Hstop; exact Hguard.
Qed.

Lemma while_loop_extends (tools : list (list (string * pyval)))
    (max_tool_calls : Z) (s : state) :
  exists ext,
    extends s (loop tools max_tool_calls s) ext
    /\ (inferences ext <= budget max_tool_calls s)%nat.
Proof.
  apply (while_loop_ind tools max_tool_calls
           (fun s s' => exists ext,
                extends s s' ext
                /\ (inferences ext <= budget max_tool_calls s)%nat)).
  - intros s0 _. exists []. split; [apply extends_refl | cbn; lia].
  - intros s0 Hguard (e2 & H2 & I2).
    destruct (round_extends tools s0) as (e1 & H1 & I1 & _).
    eexists. split; [eapply extends_trans; eassumption | ].
    pose proof (round_budget tools max_tool_calls s0 Hguard).
    rewrite inferences_app. change (ev_create ?a ?b :: e1)
      with ([ev_create a b] ++ e1).
    rewrite inferences_app, I1. cbn. lia.
Qed.

(** When the guard fails the loop does nothing. *)
Lemma while_loop_stop (tools : list (list (string * pyval)))
    (max_tool_calls : Z) (s : state) :
  guard max_tool_calls s = false -> loop tools max_tool_calls s = s.
Proof. intros Hguard. rewrite while_loop_unfold, Hguard. reflexivity. Qed.

(** The state in which [process_query] enters its loop. *)
Definition entry (query : string) (history : list message) (w : World) : state :=
  mk_state (history ++ [query_message query]) (snd (list_tools w))
    [ev_append (query_message query); ev_list_tools] false 0.

Lemma process_query_entry (query : string) (max_tool_calls : Z)
    (history : list message) (w : World) :
  run query max_tool_calls history w
  = loop (map available_tool (fst (list_tools w))) max_tool_calls
      (entry query history w).
Proof.
  unfold process_query, entry. cbn. destruct (list_tools w) as [tools w1].
  reflexivity.
Qed.

Lemma entry_answered (query : string) :
  answered [ev_append (query_message query); ev_list_tools].
Proof. repeat constructor. Qed.

(** What a whole query does, read off its log. *)
Lemma process_query_extends (query : string) (max_tool_calls : Z)
    (history : list message) (w : World) :
  let s' := run query max_tool_calls history w in
  exists ext,
    log s' = ev_append (query_message query) :: ev_list_tools :: ext
    /\ messages s' = history ++ query_message query :: appended ext
    /\ tool_calls s' = Z.of_nat (executions ext)
    /\ answered ext
    /\ (inferences ext <= Z.to_nat max_tool_calls)%nat.
Proof.
  cbn zeta. rewrite process_query_entry.
  destruct (while_loop_extends (map available_tool (fst (list_tools w)))
              max_tool_calls (entry query history w))
    as (ext & (Hl & Hm & Ht & Ha) & Hi).
  exists ext. rewrite Hl, Hm, Ht. cbn. rewrite <- app_assoc. cbn.
  repeat split; try assumption. cbn in Hi. rewrite Z.sub_0_r in Hi. exact Hi.
Qed.

Lemma for_loop_no_tool_use (r : list response_block) (s : state) :
  tool_uses r = 0%nat -> done (fold_left handle r s) = done s.
Proof.
  revert s. induction r as [ | c r IH]; intros s Hr; [reflexivity | ].
  rewrite tool_uses_cons in Hr. cbn [fold_left].
  pose proof (handle_block_tool_calls World call_tool s c) as Hc.
  destruct c; cbn in Hr; try discriminate;
    destruct Hc as [_ Hd]; rewrite IH by exact Hr; exact Hd.
Qed.

Lemma for_loop_texts (texts : list string) (s : state) :
  fold_left handle (map TextBlock texts) s
  = mk_state (messages s ++ map text_message texts) (world s)
      (log s ++ flat_map (fun t => [ev_print (t ++ newline);
                                    ev_append (text_message t)]) texts)
      (done s) (tool_calls s).
Proof.
  revert s. induction texts as [ | t texts IH]; intros s.
  - cbn. rewrite !app_nil_r. destruct s; reflexivity.
  - cbn [map fold_left flat_map]. rewrite IH. cbn.
    rewrite <- !app_assoc. reflexivity.
Qed.

(** What handling one tool use does to the counter, the history and
    [done]. *)
Lemma handle_tool_use (s : state) (id name : string) (input : pyval)
    (tu : option string) :
  let joined := join_space (fst (call_tool name input (world s))) in
  let s1 := handle s (ToolUseBlock id name input tu) in
  tool_calls s1 = tool_calls s + 1
  /\ (exists m,
         uses m = [(id, name, input)]
         /\ messages s1
            = messages s
                ++ [m; tool_result id
                         (if truthy_str joined then joined else no_response)])
  /\ done s1 = negb (truthy_str joined).
Proof.
  cbn zeta. split; [ | split].
  - exact (handle_block_tool_calls World call_tool s
             (ToolUseBlock id name input tu)).
  - destruct tu as [t | ]; cbn -[join_space truthy_str];
      [destruct (truthy_str t) | ]; cbn -[join_space truthy_str];
      destruct (call_tool name input (world s)) as [texts w];
      cbn -[join_space truthy_str];
      destruct (truthy_str (join_space texts)); cbn -[join_space truthy_str];
      eexists; (split; [ | rewrite <- app_assoc; reflexivity]); reflexivity.
  - destruct tu as [t | ]; cbn -[join_space truthy_str];
      [destruct (truthy_str t) | ]; cbn -[join_space truthy_str];
      destruct (call_tool name input (world s)) as [texts w];
      cbn -[join_space truthy_str];
      destruct (truthy_str (join_space texts)); reflexivity.
Qed.

(** *** Tools asked for and tools called *)

Lemma called_app (l1 l2 : list event) :
  called (l1 ++ l2) = called l1 ++ called l2.
Proof.
  induction l1 as [ | e l1 IH]; cbn; [reflexivity | ].
  destruct e; cbn; rewrite IH; reflexivity.
Qed.

Lemma asked_app (l1 l2 : list event) : asked (l1 ++ l2) = asked l1 ++ asked l2.
Proof.
  induction l1 as [ | e l1 IH]; cbn; [reflexivity | ].
  destruct e; cbn; rewrite IH, ?app_assoc; reflexivity.
Qed.

Lemma handle_block_called (s : state) (c : response_block) :
  exists ext,
    log (handle s c) = log s ++ ext
    /\ called ext = block_call c /\ asked ext = [].
Proof.
  destruct c as [text | id name input tu | ].
  - eexists. cbn. rewrite <- app_assoc. repeat split.
  - destruct tu as [t | ]; cbn -[join_space truthy_str];
      [destruct (truthy_str t) | ]; cbn -[join_space truthy_str];
      destruct (call_tool name input (world s)) as [texts w];
      cbn -[join_space truthy_str];
      destruct (truthy_str (join_space texts)); cbn -[join_space truthy_str];
      rewrite <- !app_assoc; eexists; repeat split.
  - exists []. cbn. rewrite app_nil_r. repeat split.
Qed.

Lemma for_loop_called (r : list response_block) (s : state) :
  exists ext,
    log (fold_left handle r s) = log s ++ ext
    /\ called ext = flat_map block_call r /\ asked ext = [].
Proof.
  revert s. induction r as [ | c r IH]; intros s.
  - exists []. cbn. rewrite app_nil_r. repeat split.
  - destruct (handle_block_called s c) as (e1 & H1 & C1 & A1).
    destruct (IH (handle s c)) as (e2 & H2 & C2 & A2).
    exists (e1 ++ e2). cbn [fold_left flat_map].
    rewrite H2, H1, app_assoc, called_app, asked_app, C1, C2, A1, A2.
    repeat split.
Qed.

Lemma round_called (tools : list (list (string * pyval))) (s : state) :
  exists ext,
    log (round create call_tool tools s) = log s ++ ext
    /\ called ext = asked ext.
Proof.
  unfold round.
  destruct (get_anthropic_response create (messages s) tools 1000 (world s))
    as [r w].
  match goal with
  | |- context [fold_left handle r ?s0] =>
      destruct (for_loop_called r s0) as (ext & Hl & Hc & Ha)
  end.
  exists (ev_create (messages s) r :: ext). rewrite Hl. cbn.
  rewrite <- app_assoc, Hc, Ha, app_nil_r. split; reflexivity.
Qed.

(** Over the rounds of the loop, the tools called are the tools asked
    for, all of them and in their order. *)
Lemma while_loop_called (tools : list (list (string * pyval)))
    (max_tool_calls : Z) (s : state) :
  exists ext,
    log (loop tools max_tool_calls s) = log s ++ ext
    /\ called ext = asked ext.
Proof.
  apply (while_loop_ind tools max_tool_calls
           (fun s s' => exists ext,
                log s' = log s ++ ext /\ called ext = asked ext)).
  - intros s0 _. exists []. rewrite app_nil_r. split; reflexivity.
  - intros s0 _ (e2 & H2 & C2).
    destruct (round_called tools s0) as (e1 & H1 & C1).
    exists (e1 ++ e2). rewrite H2, H1, app_assoc, called_app, asked_app, C1, C2.
    split; reflexivity.
Qed.

(** *** The claims *)

(** C1, as the code has it. The guard of the loop is tested between
    rounds only: a round is not started once the counter has reached
    [max_tool_calls], and every tool use of a response that was received
    is executed and counted: the tools called in a query are the tools
    that the responses received asked for, all of them and in their
    order, and the counter is their number. So when no response of the
    query holds more than [B] tool uses the counter ends at most [B - 1]
    above [max_tool_calls]; with at most one tool use in each response it
    never exceeds [max_tool_calls]. *)
Theorem tool_calls_bound (query : string) (max_tool_calls : Z)
    (history : list message) (w : World) (B : nat) :
  0 <= max_tool_calls ->
  (1 <= B)%nat ->
  (forall sent r,
      In (ev_create sent r) (log (run query max_tool_calls history w)) ->
      (tool_uses r <= B)%nat) ->
  tool_calls (run query max_tool_calls history w)
  <= max_tool_calls + Z.of_nat B - 1
  /\ tool_calls (run query max_tool_calls history w)
     = Z.of_nat (executions (log (run query max_tool_calls history w)))
  /\ (forall tools s,
         max_tool_calls <= tool_calls s -> loop tools max_tool_calls s = s)
  /\ called (log (run query max_tool_calls history w))
     = asked (log (run query max_tool_calls history w))
  /\ tool_calls (run query max_tool_calls history w)
     = Z.of_nat (List.length (asked (log (run query max_tool_calls history w)))).
Proof.
  intros Hmax HB Hlog.
  assert (Hcalled : called (log (run query max_tool_calls history w))
                    = asked (log (run query max_tool_calls history w))).
  { rewrite process_query_entry.
    destruct (while_loop_called (map available_tool (fst (list_tools w)))
                max_tool_calls (entry query history w)) as (ext & Hl & Hc).
    rewrite Hl, called_app, asked_app, Hc. reflexivity. }
  assert (Hcount : tool_calls (run query max_tool_calls history w)
                   = Z.of_nat (executions
                                 (log (run query max_tool_calls history w)))).
  { destruct (process_query_extends query max_tool_calls history w)
      as (ext & Hl & _ & Ht & _).
    rewrite Hl, Ht. reflexivity. }
  assert (Hlen : forall l, executions l = List.length (called l)).
  { induction l as [ | e l IH]; [reflexivity | ].
    destruct e; cbn; unfold executions in *; cbn; rewrite ?IH; reflexivity. }
  split; [ | split; [exact Hcount | split; [ | split; [exact Hcalled | ]]]];
    [ | | rewrite Hcount, Hlen, Hcalled; reflexivity].
  - rewrite process_query_entry in *.
    set (tools := map available_tool (fst (list_tools w))) in *.
    assert (Hinv : forall s,
      (forall sent r,
          In (ev_create sent r) (log (loop tools max_tool_calls s)) ->
          (tool_uses r <= B)%nat) ->
      tool_calls s <= max_tool_calls + Z.of_nat B - 1 ->
      tool_calls (loop tools max_tool_calls s)
      <= max_tool_calls + Z.of_nat B - 1).
    { apply (while_loop_ind tools max_tool_calls
               (fun s s' =>
                  (forall sent r, In (ev_create sent r) (log s') ->
                                  (tool_uses r <= B)%nat) ->
                  tool_calls s <= max_tool_calls + Z.of_nat B - 1 ->
                  tool_calls s' <= max_tool_calls + Z.of_nat B - 1)).
      - intros s _ _ Hs. exact Hs.
      - intros s Hguard IH Hall _. apply IH; [exact Hall | ].
        unfold guard in Hguard. apply andb_prop in Hguard as [_ Hlt].
        apply Z.ltb_lt in Hlt.
        destruct (round_extends tools s) as (e1 & (Hl1 & _ & Ht1 & _) & _ & He1).
        destruct (while_loop_extends tools max_tool_calls
                    (round create call_tool tools s)) as (e2 & (Hl2 & _) & _).
        assert (Hr : (tool_uses
                        (fst (get_anthropic_response create (messages s) tools
                                1000 (world s))) <= B)%nat).
        { apply (Hall (messages s)). rewrite Hl2, Hl1.
          apply in_or_app. left. apply in_or_app. right. left. reflexivity. }
        rewrite Ht1. change (ev_create ?a ?b :: e1) with ([ev_create a b] ++ e1).
        rewrite executions_app, He1. cbn. lia. }
    apply Hinv; [exact Hlog | cbn; lia].
  - intros tools s Hs. apply while_loop_stop. unfold guard.
    replace (tool_calls s <? max_tool_calls) with false
      by (symmetry; apply Z.ltb_ge; exact Hs).
    apply andb_false_r.
Qed.

(** C2, as the code has it. The counter is incremented for every tool
    use that is handled, whatever the tool returns: after the block the
    counter is one higher, the history holds the message of the tool use
    and then its result, which carries the joined text when that is not
    empty and the placeholder otherwise, and [done] is set exactly when
    the joined text is empty. Over a whole query the counter is the
    number of tools called. *)
Theorem every_tool_call_counted (s : state) (id name : string) (input : pyval)
    (tu : option string) (query : string) (max_tool_calls : Z)
    (history : list message) (w : World) :
  let joined := join_space (fst (call_tool name input (world s))) in
  let s1 := handle s (ToolUseBlock id name input tu) in
  tool_calls s1 = tool_calls s + 1
  /\ (exists m,
         uses m = [(id, name, input)]
         /\ messages s1
            = messages s
                ++ [m; tool_result id
                         (if truthy_str joined then joined else no_response)])
  /\ done s1 = negb (truthy_str joined)
  /\ tool_calls (run query max_tool_calls history w)
     = Z.of_nat (executions (log (run query max_tool_calls history w))).
Proof.
  cbn zeta.
  destruct (handle_tool_use s id name input tu) as (Hcount & Hmsg & Hdone).
  destruct (process_query_extends query max_tool_calls history w)
    as (ext & Hl & _ & Ht & _).
  repeat split; try assumption.
  rewrite Hl, Ht. reflexivity.
Qed.

(** C3. For every [max_tool_calls >= 0] and whatever the model and the
    tools answer, [process_query] returns (it is a total function, its
    loop being defined by recursion on what is left of the budget) and
    calls the model at most [max_tool_calls + 1] times. *)
Theorem process_query_inference_calls (query : string) (max_tool_calls : Z)
    (history : list message) (w : World) :
  0 <= max_tool_calls ->
  Z.of_nat (inferences (log (run query max_tool_calls history w)))
  <= max_tool_calls + 1.
Proof.
  intros Hmax.
  destruct (process_query_extends query max_tool_calls history w)
    as (ext & Hl & _ & _ & _ & Hi).
  rewrite Hl. unfold inferences in *. cbn [filter is_create]. lia.
Qed.

(** C4, as the code has it. When, in a round, a tool returns an empty
    joined text, the result message appended for it carries the
    placeholder and [done] is set, but the round goes on: it handles the
    blocks left in the same response as it would any others, and calls
    every tool that they ask for. When none of them is a tool use, the
    loop is left after this response, whatever the counter and
    [max_tool_calls] are, and [process_query] returns the state reached
    then, without another call of the model. *)
Theorem empty_result_ends_round (tools : list (list (string * pyval)))
    (max_tool_calls : Z) (s : state) (pre rest : list response_block)
    (id name : string) (input : pyval) (tu : option string) :
  let reply := get_anthropic_response create (messages s) tools 1000 (world s) in
  let s0 :=
    fold_left handle pre
      (set_done true
         (emit (ev_create (messages s) (fst reply)) (set_world (snd reply) s))) in
  let s1 := handle s0 (ToolUseBlock id name input tu) in
  let s2 := fold_left handle rest s1 in
  fst reply = pre ++ ToolUseBlock id name input tu :: rest ->
  join_space (fst (call_tool name input (world s0))) = "" ->
  round create call_tool tools s = s2
  /\ (exists m,
         uses m = [(id, name, input)]
         /\ messages s1 = messages s0 ++ [m; tool_result id no_response])
  /\ called (log s2) = called (log s1) ++ flat_map block_call rest
  /\ (tool_uses rest = 0%nat ->
      done s2 = true
      /\ (guard max_tool_calls s = true -> loop tools max_tool_calls s = s2)
      /\ (forall query history w,
             s = entry query history w ->
             tools = map available_tool (fst (list_tools w)) ->
             0 < max_tool_calls ->
             run query max_tool_calls history w = s2)).
Proof.
  intros reply s0 s1 s2 Hreply Hempty.
  assert (Hround : round create call_tool tools s = s2).
  { unfold round. subst s2 s1 s0. fold reply.
    destruct reply as [r w1]. cbn [fst snd] in *. subst r.
    rewrite fold_left_app. reflexivity. }
  destruct (handle_tool_use s0 id name input tu) as (_ & Hm & Hd).
  fold s1 in Hm, Hd. rewrite Hempty in Hm, Hd. cbn in Hm, Hd.
  split; [exact Hround | split; [exact Hm | split]].
  - destruct (for_loop_called rest s1) as (ext & Hl & Hc & _).
    fold s2 in Hl. rewrite Hl, called_app, Hc. reflexivity.
  - intros Hrest.
    assert (Hd2 : done s2 = true).
    { subst s2. rewrite for_loop_no_tool_use by exact Hrest. exact Hd. }
    assert (Hloop : guard max_tool_calls s = true ->
                    loop tools max_tool_calls s = s2).
    { intros Hguard. rewrite while_loop_unfold, Hguard, Hround.
      apply while_loop_stop. unfold guard. rewrite Hd2. reflexivity. }
    split; [exact Hd2 | split; [exact Hloop | ]].
    intros query history w Hs Htools Hmax.
    rewrite process_query_entry, <- Htools, <- Hs. apply Hloop.
    rewrite Hs. unfold guard, entry. cbn. apply Z.ltb_lt. exact Hmax.
Qed.

(** C6, as the code has it. When [max_tool_calls] is positive and the
    first response of the model is made of text blocks only,
    [process_query] calls the model once and no tool, ends with the
    counter at 0, and appends the user message and one assistant message
    for each text block: the history grows by one plus the number of text
    blocks, that is by exactly 2 when the response is a single text
    block. *)
Theorem text_only_first_response (query : string) (max_tool_calls : Z)
    (history : list message) (w : World) (texts : list string) :
  0 < max_tool_calls ->
  first_response create list_tools query history w = map TextBlock texts ->
  let s' := run query max_tool_calls history w in
  inferences (log s') = 1%nat
  /\ executions (log s') = 0%nat
  /\ tool_calls s' = 0
  /\ messages s' = history ++ query_message query :: map text_message texts
  /\ List.length (messages s')
     = (List.length history + 1 + List.length texts)%nat.
Proof.
  intros Hmax Hfirst. cbn zeta. rewrite process_query_entry.
  set (tools := map available_tool (fst (list_tools w))).
  rewrite while_loop_unfold.
  assert (Hguard : guard max_tool_calls (entry query history w) = true).
  { unfold guard, entry. cbn. apply Z.ltb_lt. exact Hmax. }
  rewrite Hguard.
  assert (Hround :
    round create call_tool tools (entry query history w)
    = mk_state (history ++ query_message query :: map text_message texts)
        (snd (get_anthropic_response create (history ++ [query_message query])
                tools 1000 (snd (list_tools w))))
        ([ev_append (query_message query); ev_list_tools;
          ev_create (history ++ [query_message query]) (map TextBlock texts)]
           ++ flat_map (fun t => [ev_print (t ++ newline);
                                  ev_append (text_message t)]) texts)
        true 0).
  { unfold round, first_response in *. fold tools in Hfirst.
    cbn [entry messages world].
    destruct (get_anthropic_response create (history ++ [query_message query])
                tools 1000 (snd (list_tools w))) as [r w1].
    cbn [fst snd] in *. subst r. rewrite for_loop_texts. cbn.
    rewrite <- app_assoc. reflexivity. }
  rewrite Hround, while_loop_stop by reflexivity.
  cbn [log messages tool_calls].
  assert (Hflat : forall l,
    inferences (flat_map (fun t => [ev_print (t ++ newline);
                                    ev_append (text_message t)]) l) = 0%nat
    /\ executions (flat_map (fun t => [ev_print (t ++ newline);
                                       ev_append (text_message t)]) l) = 0%nat).
  { induction l as [ | t l [IHi IHe]]; [split; reflexivity | ].
    split; cbn; assumption. }
  destruct (Hflat texts) as [Hi He].
  rewrite inferences_app, executions_app, Hi, He.
  repeat split.
  rewrite length_app. cbn. rewrite length_map. lia.
Qed.

(** C9. With [max_tool_calls = 0] the loop is not entered: whatever the
    model would answer, [process_query] appends the query, lists the
    tools and returns, without any call of the model or of a tool. *)
Theorem zero_budget_runs_no_tool (query : string) (history : list message)
    (w : World) :
  let s' := run query 0 history w in
  log s' = [ev_append (query_message query); ev_list_tools]
  /\ executions (log s') = 0%nat
  /\ inferences (log s') = 0%nat
  /\ messages s' = history ++ [query_message query]
  /\ tool_calls s' = 0.
Proof.
  cbn zeta. rewrite process_query_entry, while_loop_stop by reflexivity.
  repeat split.
Qed.

End OrchestratorFacts.

(** *** Runs *)

(** C1 as stated fails: with [max_tool_calls = 1] and a first response
    that holds two tool uses, both tools are executed and the counter
    ends at 2. *)
Lemma tool_calls_exceed_budget :
  let s' :=
    Client.process_query Scenario.scripted Scenario.one_tool Scenario.answering
      "q" 1 []
      [[Client.ToolUseBlock "tu_1" "get_current_date_and_time" (PDict []) None;
        Client.ToolUseBlock "tu_2" "get_current_date_and_time" (PDict []) None]] in
  Client.tool_calls s' = 2
  /\ Client.executions (Client.log s') = 2%nat
  /\ ~ Client.tool_calls s' <= 1.
Proof.
  vm_compute. split; [reflexivity | split; [reflexivity | ]].
  intros H. apply H. reflexivity.
Qed.

(** A model that asks for one tool in every response, with a budget of
    one call. *)
Lemma tool_calls_bound_witness :
  Client.tool_calls
    (Client.process_query Scenario.eager Scenario.one_tool Scenario.answering
       "what time is it" 1 [] tt)
  <= 1 + Z.of_nat 1 - 1.
Proof.
  refine (proj1 (tool_calls_bound unit Scenario.eager Scenario.one_tool
                   Scenario.answering "what time is it" 1 [] tt 1 _ _ _)).
  - discriminate.
  - exact (le_n 1).
  - intros sent r Hin. vm_compute in Hin.
    destruct Hin as [Hin | [Hin | [Hin | [Hin | [Hin | [Hin | [Hin | []]]]]]]];
      try discriminate.
    injection Hin as _ <-. exact (le_n 1).
Defined.

(** C2 as stated fails: the tool returns nothing, the joined text is
    empty, and the counter is incremented all the same. *)
Lemma counter_incremented_on_empty_result :
  let s' :=
    Client.process_query Scenario.scripted Scenario.one_tool Scenario.answering
      "q" 5 [] [[Client.ToolUseBlock "tu_1" "silent" (PDict []) None]] in
  join_space (fst (Scenario.answering "silent" (PDict [])
                     ([] : list (list Client.response_block)))) = ""
  /\ Client.executions (Client.log s') = 1%nat
  /\ Client.tool_calls s' = 1
  /\ Client.tool_calls s' <> 0.
Proof.
  vm_compute. repeat split. discriminate.
Qed.

(** A model that asks for one tool in every response, with a budget of
    three calls. *)
Lemma process_query_inference_calls_witness :
  Z.of_nat
    (Client.inferences
       (Client.log
          (Client.process_query Scenario.eager Scenario.one_tool
             Scenario.answering "what time is it" 3 [] tt)))
  <= 3 + 1.
Proof.
  refine (process_query_inference_calls unit Scenario.eager Scenario.one_tool
            Scenario.answering "what time is it" 3 [] tt _).
  discriminate.
Defined.

(** C4 as stated fails: the first tool of the response returns nothing,
    and yet the second tool use of the same response is executed and the
    model is called again. *)
Lemma empty_result_does_not_end_round :
  let s' :=
    Client.process_query Scenario.scripted Scenario.one_tool Scenario.answering
      "q" 5 []
      [[Client.ToolUseBlock "tu_1" "silent" (PDict []) None;
        Client.ToolUseBlock "tu_2" "get_current_date_and_time" (PDict []) None];
       [Client.TextBlock "done"]] in
  Client.messages s'
  = [Client.query_message "q";
     Client.mk_message Client.assistant
       (Client.content_blocks [Client.tool_use_block "tu_1" "silent" (PDict [])]);
     Client.tool_result "tu_1" "No response from tool";
     Client.mk_message Client.assistant
       (Client.content_blocks
          [Client.tool_use_block "tu_2" "get_current_date_and_time" (PDict [])]);
     Client.tool_result "tu_2" "2024-03-02T15:00:00";
     Client.text_message "done"]
  /\ Client.executions (Client.log s') = 2%nat
  /\ Client.inferences (Client.log s') = 2%nat.
Proof.
  vm_compute. repeat split.
Qed.

(** A query whose first response asks for a silent tool and then
    holds a text block, with a budget of five calls. *)
Lemma empty_result_ends_round_witness :
  let script :=
    [[Client.ToolUseBlock "tu_1" "silent" (PDict []) None;
      Client.TextBlock "bye"];
     [Client.TextBlock "never asked for"]] in
  let s' :=
    Client.process_query Scenario.scripted Scenario.one_tool Scenario.answering
      "q" 5 [] script in
  Client.messages s'
  = [Client.query_message "q";
     Client.mk_message Client.assistant
       (Client.content_blocks [Client.tool_use_block "tu_1" "silent" (PDict [])]);
     Client.tool_result "tu_1" "No response from tool";
     Client.text_message "bye"]
  /\ Client.inferences (Client.log s') = 1%nat
  /\ Client.tool_calls s' = 1.
Proof.
  cbv zeta.
  rewrite (proj2 (proj2 (proj2 (proj2 (proj2
             (empty_result_ends_round (list (list Client.response_block))
                Scenario.scripted Scenario.one_tool Scenario.answering
                (map Client.available_tool
                   (fst (Scenario.one_tool
                           [[Client.ToolUseBlock "tu_1" "silent" (PDict []) None;
                             Client.TextBlock "bye"];
                            [Client.TextBlock "never asked for"]])))
                5
                (entry (list (list Client.response_block)) Scenario.one_tool
                   "q" []
                   [[Client.ToolUseBlock "tu_1" "silent" (PDict []) None;
                     Client.TextBlock "bye"];
                    [Client.TextBlock "never asked for"]])
                [] [Client.TextBlock "bye"] "tu_1" "silent" (PDict []) None
                eq_refl eq_refl))) eq_refl))
             "q" []
             [[Client.ToolUseBlock "tu_1" "silent" (PDict []) None;
               Client.TextBlock "bye"];
              [Client.TextBlock "never asked for"]]
             eq_refl eq_refl eq_refl).
  repeat split.
Defined.

(** C6 as stated fails: the first response holds two text blocks and no
    tool use, and the history grows by three messages. *)
Lemma two_texts_grow_history_by_three :
  let script := [[Client.TextBlock "a"; Client.TextBlock "b"]] in
  let s' :=
    Client.process_query Scenario.scripted Scenario.one_tool Scenario.answering
      "q" 5 [] script in
  Client.first_response Scenario.scripted Scenario.one_tool "q" [] script
  = [Client.TextBlock "a"; Client.TextBlock "b"]
  /\ Client.inferences (Client.log s') = 1%nat
  /\ List.length (Client.messages s') = 3%nat
  /\ List.length (Client.messages s') <> (0 + 2)%nat.
Proof.
  vm_compute. repeat split. discriminate.
Qed.

(** The query of the specification's scenario, answered by one text
    block. *)
Lemma text_only_first_response_witness :
  let s' :=
    Client.process_query Scenario.scripted Scenario.one_tool Scenario.answering
      "what tools are available" 5 []
      [[Client.TextBlock "One tool is available."]] in
  Client.inferences (Client.log s') = 1%nat
  /\ Client.executions (Client.log s') = 0%nat
  /\ Client.tool_calls s' = 0
  /\ Client.messages s'
     = [Client.query_message "what tools are available";
        Client.text_message "One tool is available."]
  /\ List.length (Client.messages s') = 2%nat.
Proof.
  refine (text_only_first_response (list (list Client.response_block))
            Scenario.scripted Scenario.one_tool Scenario.answering
            "what tools are available" 5 []
            [[Client.TextBlock "One tool is available."]]
            ["One tool is available."] _ _).
  - reflexivity.
  - reflexivity.
Defined.

(** * Further properties *)

(** ** The retrying fetch, in full *)

(** One pass of the retry loop. *)
Lemma get_response_loop_step (W : Type)
    (http_get : string -> W -> option pyval * W) (url : string) (retries : Z)
    (st : OpenF1Utils.net W) :
  OpenF1Utils.get_response_loop http_get url retries st =
  if retries <? OpenF1Utils.max_retries then
    match OpenF1Utils.attempt http_get url st with
    | (Some payload, st') => (payload, st')
    | (None, st') =>
        if retries + 1 =? OpenF1Utils.max_retries then (PNone, st')
        else OpenF1Utils.get_response_loop http_get url (retries + 1) st'
    end
  else (PNone, st).
Proof. exact (get_response_loop_unfold W http_get url retries st). Qed.

Section FetchCases.

Import OpenF1Utils.

Variable W : Type.
Variable http_get : string -> W -> option pyval * W.

(** Every run of the loop ends in one of two ways: after some failures
    that leave a retry, a success; or the failure that uses up the last
    retry. *)
Lemma get_response_loop_cases (url : string) (n : nat) :
  forall (retries : Z) (st : net W),
    0 <= retries < max_retries ->
    n = Z.to_nat (max_retries - retries) ->
    exists (k : nat) (w1 : W),
      fails_k http_get k url (env st) w1
      /\ ((retries + Z.of_nat k < max_retries
           /\ exists payload w2,
               http_get url w1 = (Some payload, w2)
               /\ get_response_loop http_get url retries st
                  = (payload, mk_net w2 (attempts st ++ repeat url (S k))))
          \/ (retries + Z.of_nat k = max_retries
              /\ get_response_loop http_get url retries st
                 = (PNone, mk_net w1 (attempts st ++ repeat url k)))).
Proof.
  induction n as [ | n IH]; intros retries st Hr Hn; [lia | ].
  pose proof (get_response_loop_step W http_get url retries st) as Hunf.
  assert (Hguard : (retries <? max_retries) = true) by (apply Z.ltb_lt; lia).
  rewrite Hguard in Hunf. unfold attempt in Hunf.
  destruct (http_get url (env st)) as [[payload | ] w'] eqn:Hget.
  - exists 0%nat, (env st). split; [reflexivity | ]. left.
    split; [lia | ]. exists payload, w'. split; [exact Hget | exact Hunf].
  - revert Hunf.
    destruct (Z.eqb_spec (retries + 1) max_retries) as [Hlast | Hmore];
      intros Hunf.
    + exists 1%nat, w'. split; [exists w'; split; [exact Hget | reflexivity] | ].
      right. split; [lia | exact Hunf].
    + destruct (IH (retries + 1) (mk_net w' (attempts st ++ [url])))
        as (k & w1 & Hfail & Hcases); [lia | lia | ].
      exists (S k), w1. split; [exists w'; split; [exact Hget | exact Hfail] | ].
      cbn [env attempts] in Hcases.
      destruct Hcases as [(Hlt & payload & w2 & Hok & Heq) | (Hk & Heq)].
      * left. split; [lia | ]. exists payload, w2. split; [exact Hok | ].
        rewrite Hunf, Heq, <- app_assoc. reflexivity.
      * right. split; [lia | ]. rewrite Hunf, Heq, <- app_assoc. reflexivity.
Qed.

(** X1. Every call of [get_response] ends in one of two ways: the
    endpoint fails [k] times with [k < max_retries] and then answers, and
    the answer is returned after exactly [k + 1] requests; or it fails
    [max_retries] times and [None] is returned after exactly
    [max_retries] requests. *)
Theorem get_response_cases (url : string) (st : net W) :
  exists (k : nat) (w1 : W),
    fails_k http_get k url (env st) w1
    /\ ((Z.of_nat k < max_retries
         /\ exists payload w2,
             http_get url w1 = (Some payload, w2)
             /\ get_response http_get url st
                = (payload, mk_net w2 (attempts st ++ repeat url (S k))))
        \/ (Z.of_nat k = max_retries
            /\ get_response http_get url st
               = (PNone, mk_net w1 (attempts st ++ repeat url k)))).
Proof.
  destruct (get_response_loop_cases url (Z.to_nat max_retries) 0 st)
    as (k & w1 & Hfail & Hcases);
    [unfold max_retries; lia | f_equal; lia | ].
  exists k, w1. split; [exact Hfail | ].
  exact Hcases.
Qed.

(** The requests of one call: the URL given, once to [max_retries]
    times. *)
Lemma get_response_attempts_only (url : string) (st : net W) :
  exists n : nat,
    (1 <= n)%nat /\ Z.of_nat n <= max_retries
    /\ attempts (snd (get_response http_get url st))
       = attempts st ++ repeat url n.
Proof.
  destruct (get_response_loop_cases url (Z.to_nat max_retries) 0 st)
    as (k & w1 & _ & Hcases);
    [unfold max_retries; lia | f_equal; lia | ].
  fold (get_response http_get url st) in Hcases.
  destruct Hcases as [(Hlt & payload & w2 & _ & Heq) | (Hk & Heq)];
    rewrite Heq; cbn [snd attempts].
  - exists (S k). repeat split; lia.
  - exists k. unfold max_retries in *. repeat split; lia.
Qed.

(** X2. A call of [get_response] requests nothing but the URL it was
    given, at least once and at most [max_retries] times, and what it
    returns other than [None] is a payload that the endpoint gave for
    that URL. *)
Theorem get_response_requests (url : string) (st : net W) :
  (exists n : nat,
      (1 <= n)%nat /\ Z.of_nat n <= max_retries
      /\ attempts (snd (get_response http_get url st))
         = attempts st ++ repeat url n)
  /\ (fst (get_response http_get url st) <> PNone ->
      exists w1 w2,
        http_get url w1 = (Some (fst (get_response http_get url st)), w2)).
Proof.
  split; [apply get_response_attempts_only | ].
  destruct (get_response_loop_cases url (Z.to_nat max_retries) 0 st)
    as (k & w1 & _ & Hcases);
    [unfold max_retries; lia | f_equal; lia | ].
  fold (get_response http_get url st) in Hcases.
  destruct Hcases as [(_ & payload & w2 & Hok & Heq) | (_ & Heq)];
    rewrite Heq; cbn [fst]; intros Hne.
  - exists w1, w2. exact Hok.
  - contradiction.
Qed.

(** When the endpoint fails [max_retries] times in a row. *)
Lemma get_response_exhausted (url : string) (st : net W) (w1 : W) :
  fails_k http_get (Z.to_nat max_retries) url (env st) w1 ->
  get_response http_get url st
  = (PNone, mk_net w1 (attempts st ++ repeat url (Z.to_nat max_retries))).
Proof.
  change (Z.to_nat max_retries) with 5%nat. intros Hfail.
  apply (fails_k_snoc W http_get 4 url (env st) w1) in Hfail
    as (w0 & Hfail & Hlast).
  unfold get_response.
  rewrite (get_response_loop_failures W http_get 4 url 0 st w0 Hfail)
    by (unfold max_retries; lia).
  rewrite get_response_loop_step. cbn [Z.of_nat Z.add Z.ltb Z.compare].
  change (4 <? max_retries) with true. cbn iota.
  unfold attempt. cbn [env attempts]. rewrite Hlast.
  change (Z.of_nat 4) with 4. change (0 + 4 + 1 =? max_retries) with true.
  cbn iota. rewrite <- app_assoc. reflexivity.
Qed.

End FetchCases.

(** ** Dicts *)

Lemma dict_get_set_same (k : string) (v : pyval) (d : list (string * pyval)) :
  dict_get k (dict_set k v d) = Some v.
Proof.
  induction d as [ | [k' v'] d IH]; cbn.
  - rewrite String.eqb_refl. reflexivity.
  - destruct (String.eqb k k') eqn:Hk; cbn.
    + rewrite String.eqb_refl. reflexivity.
    + rewrite Hk. exact IH.
Qed.

Lemma dict_get_set_other (k k0 : string) (v : pyval) (d : list (string * pyval)) :
  k0 <> k -> dict_get k0 (dict_set k v d) = dict_get k0 d.
Proof.
  intros Hne. induction d as [ | [k' v'] d IH]; cbn.
  - apply String.eqb_neq in Hne. rewrite Hne. reflexivity.
  - destruct (String.eqb_spec k k') as [<- | Hk]; cbn.
    + apply String.eqb_neq in Hne. rewrite Hne. reflexivity.
    + rewrite IH. reflexivity.
Qed.

Lemma dict_get_absent (k : string) (d : list (string * pyval)) :
  ~ In k (map fst d) -> dict_get k d = None.
Proof.
  induction d as [ | [k' v'] d IH]; cbn; intros Hin; [reflexivity | ].
  destruct (String.eqb_spec k k') as [-> | Hk]; [tauto | ].
  apply IH. tauto.
Qed.

Lemma dict_set_keys (k k0 : string) (v : pyval) (d : list (string * pyval)) :
  In k0 (map fst (dict_set k v d)) <-> k0 = k \/ In k0 (map fst d).
Proof.
  induction d as [ | [k' v'] d IH]; cbn.
  - intuition congruence.
  - destruct (String.eqb_spec k k') as [<- | Hk]; cbn.
    + intuition congruence.
    + rewrite IH. intuition congruence.
Qed.

Lemma dict_set_NoDup (k : string) (v : pyval) (d : list (string * pyval)) :
  NoDup (map fst d) -> NoDup (map fst (dict_set k v d)).
Proof.
  induction d as [ | [k' v'] d IH]; cbn; intros Hd.
  - constructor; [intros [] | constructor].
  - inversion Hd as [ | x l Hnotin Hrest]; subst.
    destruct (String.eqb_spec k k') as [<- | Hk]; cbn.
    + constructor; assumption.
    + constructor; [ | apply IH; exact Hrest].
      rewrite dict_set_keys. intros [-> | Hin]; [congruence | contradiction].
Qed.

(** X3. In the dict built by merging [d2] over [d1], a key of [d2] has
    the value that [d2] gives it and any other key the value that [d1]
    gives it: the fields of the meeting override those of the session. *)
Theorem dict_merge_lookup (d1 d2 : list (string * pyval)) (k : string) :
  NoDup (map fst d2) ->
  dict_get k (dict_merge d1 d2)
  = match dict_get k d2 with
    | Some v => Some v
    | None => dict_get k d1
    end.
Proof.
  unfold dict_merge. revert d1.
  induction d2 as [ | [k' v'] d2 IH]; intros d1 Hd; cbn; [reflexivity | ].
  inversion Hd as [ | x l Hnotin Hrest]; subst.
  rewrite IH by exact Hrest.
  destruct (String.eqb_spec k k') as [-> | Hk].
  - rewrite dict_get_absent by exact Hnotin. apply dict_get_set_same.
  - rewrite dict_get_set_other by exact Hk. reflexivity.
Qed.

(** Merging keeps a dict a dict: when the keys of [d1] are distinct,
    so are those of the merged dict, whatever [d2] holds, and its keys
    are those of [d1] and of [d2]. *)
Lemma dict_merge_keys (d1 d2 : list (string * pyval)) :
  NoDup (map fst d1) ->
  NoDup (map fst (dict_merge d1 d2))
  /\ (forall k,
         In k (map fst (dict_merge d1 d2))
         <-> In k (map fst d1) \/ In k (map fst d2)).
Proof.
  unfold dict_merge. revert d1.
  induction d2 as [ | [k' v'] d2 IH]; intros d1 Hd; cbn.
  - split; [exact Hd | intros k; tauto].
  - destruct (IH (dict_set k' v' d1) (dict_set_NoDup k' v' d1 Hd)) as [Hn Hk].
    split; [exact Hn | ].
    intros k. rewrite Hk, dict_set_keys. intuition congruence.
Qed.

(** ** The tools, request by request *)

Lemma prefix_app (s t : string) : String.prefix s (s ++ t) = true.
Proof.
  induction s as [ | c s IH]; cbn; [destruct t; reflexivity | ].
  destruct (Ascii.ascii_dec c c) as [_ | Hne]; [exact IH | congruence].
Qed.

Lemma string_app_assoc (a b c : string) :
  ((a ++ b) ++ c)%string = (a ++ (b ++ c))%string.
Proof. induction a as [ | x a IH]; cbn; [reflexivity | rewrite IH; reflexivity]. Qed.

Section ToolCoverage.

Import OpenF1Utils F1Types StdioServer.

Variable W : Type.
Variable http_get : string -> W -> option pyval * W.
Variable validate_Session : list (string * pyval) -> option Session.
Variable validate_Driver : list (string * pyval) -> option Driver.
Variable validate_Lap : list (string * pyval) -> option Lap.
Variable validate_TrackConditions : list (string * pyval) -> option TrackConditions.
Variable py_repr : pyval -> string.

(** A row that the comprehension accepts, and what it makes of it. *)
Definition row_of {A : Type} (validate : list (string * pyval) -> option A)
    (x : pyval) (a : A) : Prop :=
  exists d, py_mapping x = Some d /\ validate d = Some a.

Lemma bind_fetch {B : Type} (url : string) (k : pyval -> tool W B) (st : net W) :
  bind W (fetch http_get url) k st
  = k (fst (get_response http_get url st)) (snd (get_response http_get url st)).
Proof.
  unfold bind, fetch. destruct (get_response http_get url st). reflexivity.
Qed.

Lemma bind_or_raise {A B : Type} (o : option A) (k : A -> tool W B) (st : net W) :
  bind W (or_raise W o) k st
  = match o with
    | Some a => k a st
    | None => (Raise, st)
    end.
Proof. destruct o; reflexivity. Qed.

Lemma construct_all_state {A : Type} (validate : list (string * pyval) -> option A)
    (l : list pyval) (st : net W) :
  snd (construct_all validate l st) = st.
Proof.
  induction l as [ | x l IH]; [reflexivity | ].
  cbn [construct_all]. rewrite bind_or_raise.
  destruct (py_mapping x) as [d | ]; [ | reflexivity].
  rewrite bind_or_raise. destruct (validate d) as [a | ]; [ | reflexivity].
  unfold bind. destruct (construct_all validate l st) as [[r | ] st'];
    cbn in *; exact IH.
Qed.

Lemma construct_all_rows {A : Type} (validate : list (string * pyval) -> option A)
    (l : list pyval) (st : net W) (r : list A) :
  fst (construct_all validate l st) = Ok r <-> Forall2 (row_of validate) l r.
Proof.
  revert r. induction l as [ | x l IH]; intros r.
  - cbn. split.
    + intros Heq. injection Heq as <-. constructor.
    + intros Hall. inversion Hall. reflexivity.
  - cbn [construct_all]. rewrite bind_or_raise.
    destruct (py_mapping x) as [d | ] eqn:Hx.
    + rewrite bind_or_raise. destruct (validate d) as [a | ] eqn:Hd.
      * unfold bind. destruct (construct_all validate l st) as [[r0 | ] st'];
          cbn in *.
        -- split.
           ++ intros Heq. injection Heq as <-.
              constructor; [exists d; auto | apply IH; reflexivity].
           ++ intros Hall. inversion Hall as [ | x' a' l' r' Hrow Hrest]; subst.
              destruct Hrow as (d' & Hx' & Hd').
              apply IH in Hrest. congruence.
        -- split; [discriminate | ].
           intros Hall. inversion Hall as [ | x' a' l' r' Hrow Hrest]; subst.
           apply IH in Hrest. discriminate.
      * cbn. split; [discriminate | ].
        intros Hall. inversion Hall as [ | x' a' l' r' Hrow Hrest]; subst.
        destruct Hrow as (d' & Hx' & Hd'). congruence.
    + cbn. split; [discriminate | ].
      intros Hall. inversion Hall as [ | x' a' l' r' Hrow Hrest]; subst.
      destruct Hrow as (d' & Hx' & Hd'). congruence.
Qed.

Lemma segments_state (lap : pyval) (key : string) (st : net W) :
  snd (segments W lap key st) = st.
Proof.
  unfold segments. rewrite bind_or_raise.
  destruct (py_getitem lap key) as [v | ]; [ | reflexivity].
  rewrite bind_or_raise. destruct (py_iter v); reflexivity.
Qed.

Lemma bind_segments {B : Type} (lap : pyval) (key : string)
    (k : pyval -> tool W B) (st : net W) :
  bind W (segments W lap key) k st
  = match fst (segments W lap key st) with
    | Ok v => k v st
    | Raise => (Raise, st)
    end.
Proof.
  unfold bind. pose proof (segments_state lap key st) as Hst.
  destruct (segments W lap key st) as [[v | ] st']; cbn in *; subst; reflexivity.
Qed.

Lemma get_laps_loop_state (l : list pyval) (laps : list Lap) (st : net W) :
  snd (get_laps_loop validate_Lap l laps st) = st.
Proof.
  revert laps. induction l as [ | lap l IH]; intros laps; [reflexivity | ].
  cbn [get_laps_loop]. rewrite bind_or_raise.
  destruct (py_mapping lap) as [d | ]; [ | reflexivity].
  rewrite bind_segments.
  destruct (fst (segments W lap "segments_sector_1" st)); [ | reflexivity].
  rewrite bind_segments.
  destruct (fst (segments W lap "segments_sector_2" st)); [ | reflexivity].
  rewrite bind_segments.
  destruct (fst (segments W lap "segments_sector_3" st)); [ | reflexivity].
  rewrite bind_or_raise. destruct (validate_Lap _); [apply IH | reflexivity].
Qed.

Lemma get_drivers_state (session_key : Z) (driver_number : option Z)
    (st : net W) :
  snd (get_drivers http_get validate_Driver session_key driver_number st)
  = snd (get_response http_get (get_drivers_url session_key driver_number) st).
Proof.
  unfold get_drivers. rewrite bind_fetch.
  destruct (fst (get_response http_get _ st)); try reflexivity;
    rewrite bind_or_raise; cbn [py_iter]; try reflexivity;
    apply construct_all_state.
Qed.

Lemma get_laps_state (session_key driver_number : Z) (st : net W) :
  snd (get_laps http_get validate_Lap session_key driver_number st)
  = snd (get_response http_get (get_laps_url session_key driver_number) st).
Proof.
  unfold get_laps. rewrite bind_fetch.
  destruct (fst (get_response http_get _ st)); try reflexivity;
    rewrite bind_or_raise; cbn [py_iter]; try reflexivity;
    apply get_laps_loop_state.
Qed.

Lemma get_track_conditions_state (session_key : Z) (start_date : option string)
    (st : net W) :
  snd (get_track_conditions http_get validate_TrackConditions session_key
         start_date st)
  = snd (get_response http_get
           (get_track_conditions_url session_key start_date) st).
Proof.
  unfold get_track_conditions. rewrite bind_fetch.
  destruct (fst (get_response http_get _ st)); try reflexivity;
    rewrite bind_or_raise; cbn [py_iter]; try reflexivity;
    apply construct_all_state.
Qed.

(** X4. Each of [get_drivers], [get_laps] and [get_track_conditions]
    calls [get_response] exactly once, on the URL built from its
    arguments, and makes no other request: whether it returns or raises,
    it leaves the network as that one call left it. *)
Theorem one_fetch_per_tool (session_key : Z) (driver_number : option Z)
    (lap_driver : Z) (start_date : option string) (st : net W) :
  snd (get_drivers http_get validate_Driver session_key driver_number st)
  = snd (get_response http_get (get_drivers_url session_key driver_number) st)
  /\ snd (get_laps http_get validate_Lap session_key lap_driver st)
     = snd (get_response http_get (get_laps_url session_key lap_driver) st)
  /\ snd (get_track_conditions http_get validate_TrackConditions session_key
            start_date st)
     = snd (get_response http_get
              (get_track_conditions_url session_key start_date) st).
Proof.
  split; [apply get_drivers_state | ].
  split; [apply get_laps_state | apply get_track_conditions_state].
Qed.

(** X5. When the response is a list of rows, [get_drivers] and
    [get_track_conditions] return one model for each row, in the order
    of the rows, each built from its row; they raise whenever one row is
    not an object or fails validation, and return no partial list. *)
Theorem rows_all_or_nothing (session_key : Z) (driver_number : option Z)
    (start_date : option string) (st : net W) :
  (forall rows r,
      fst (get_response http_get (get_drivers_url session_key driver_number) st)
      = PList rows ->
      (fst (get_drivers http_get validate_Driver session_key driver_number st)
       = Ok r
       <-> Forall2 (row_of validate_Driver) rows r))
  /\ (forall rows r,
      fst (get_response http_get
             (get_track_conditions_url session_key start_date) st)
      = PList rows ->
      (fst (get_track_conditions http_get validate_TrackConditions session_key
              start_date st)
       = Ok r
       <-> Forall2 (row_of validate_TrackConditions) rows r)).
Proof.
  split; intros rows r Hrows.
  - unfold get_drivers. rewrite bind_fetch, Hrows, bind_or_raise.
    cbn [py_iter]. apply construct_all_rows.
  - unfold get_track_conditions. rewrite bind_fetch, Hrows, bind_or_raise.
    cbn [py_iter]. apply construct_all_rows.
Qed.

(** What [get_sessions] makes of a row and of the response for its
    meeting ([None]: it raises). *)
Definition session_of (session meeting_response : pyval) : option Session :=
  match py_mapping session, py_getitem_0 meeting_response with
  | Some d1, Some m0 =>
      match py_mapping m0 with
      | Some d2 => validate_Session (dict_merge d1 d2)
      | None => None
      end
  | _, _ => None
  end.

Definition meeting_url (meeting_key : pyval) : string :=
  (BASE_URL ++ "/meetings?meeting_key=" ++ py_str py_repr meeting_key)%string.

Abbreviation sessions_loop :=
  (get_sessions_loop http_get validate_Session py_repr).

Lemma get_sessions_loop_step (session : pyval) (rest : list pyval)
    (acc : list Session) (st : net W) :
  sessions_loop (session :: rest) acc st
  = match py_getitem session "meeting_key" with
    | None => (Raise, st)
    | Some mk =>
        let gr := get_response http_get (meeting_url mk) st in
        match fst gr with
        | PNone => sessions_loop rest acc (snd gr)
        | v =>
            match session_of session v with
            | Some s => sessions_loop rest (acc ++ [s]) (snd gr)
            | None => (Raise, snd gr)
            end
        end
    end.
Proof.
  cbn [get_sessions_loop]. rewrite bind_or_raise.
  destruct (py_getitem session "meeting_key") as [mk | ]; [ | reflexivity].
  rewrite bind_fetch. fold (meeting_url mk). cbn zeta.
  destruct (fst (get_response http_get (meeting_url mk) st)) eqn:Hv;
    try reflexivity;
    unfold session_of; rewrite bind_or_raise;
    destruct (py_mapping session) as [d1 | ]; try reflexivity;
    rewrite bind_or_raise;
    match goal with
    | |- context [py_getitem_0 ?v] =>
        destruct (py_getitem_0 v) as [m0 | ]; try reflexivity
    end;
    rewrite bind_or_raise;
    destruct (py_mapping m0) as [d2 | ]; try reflexivity;
    rewrite bind_or_raise;
    destruct (validate_Session (dict_merge d1 d2)); reflexivity.
Qed.

Lemma get_sessions_loop_grows (rows : list pyval) :
  forall (acc : list Session) (st : net W) (l : list Session),
    fst (sessions_loop rows acc st) = Ok l ->
    exists new, l = acc ++ new /\ (List.length new <= List.length rows)%nat.
Proof.
  induction rows as [ | session rest IH]; intros acc st l Hl.
  - cbn in Hl. injection Hl as <-. exists []. rewrite app_nil_r.
    split; [reflexivity | cbn; lia].
  - rewrite get_sessions_loop_step in Hl.
    destruct (py_getitem session "meeting_key") as [mk | ]; [ | discriminate].
    cbn zeta in Hl.
    destruct (fst (get_response http_get (meeting_url mk) st)) eqn:Hv;
      try (apply IH in Hl as (new & -> & Hlen); exists new;
           split; [reflexivity | cbn; lia]);
      (destruct (session_of session _) as [sess | ]; [ | discriminate];
       apply IH in Hl as (new & -> & Hlen); exists (sess :: new);
       rewrite <- app_assoc; split; [reflexivity | cbn; lia]).
Qed.

(** [collected st rows l st']: going through [rows] in their order from
    the network state [st], a row whose meeting request comes back as
    [None] gives nothing, any other row gives the one session built from
    it and from the response for its meeting, and [l] is the list of the
    sessions given, [st'] the network state at the end. *)
Inductive collected : net W -> list pyval -> list Session -> net W -> Prop :=
| collected_nil (st : net W) : collected st [] [] st
| collected_skip (st st' : net W) (row : pyval) (rows : list pyval)
    (l : list Session) (mk : pyval) :
    py_getitem row "meeting_key" = Some mk ->
    fst (get_response http_get (meeting_url mk) st) = PNone ->
    collected (snd (get_response http_get (meeting_url mk) st)) rows l st' ->
    collected st (row :: rows) l st'
| collected_keep (st st' : net W) (row : pyval) (rows : list pyval)
    (l : list Session) (mk : pyval) (s : Session) :
    py_getitem row "meeting_key" = Some mk ->
    fst (get_response http_get (meeting_url mk) st) <> PNone ->
    session_of row (fst (get_response http_get (meeting_url mk) st)) = Some s ->
    collected (snd (get_response http_get (meeting_url mk) st)) rows l st' ->
    collected st (row :: rows) (s :: l) st'.

Lemma collected_length (st st' : net W) (rows : list pyval) (l : list Session) :
  collected st rows l st' -> (List.length l <= List.length rows)%nat.
Proof. induction 1; cbn; lia. Qed.

Lemma get_sessions_loop_collected (rows : list pyval) :
  forall (acc : list Session) (st : net W) (l' : list Session),
    fst (sessions_loop rows acc st) = Ok l' ->
    exists l,
      l' = acc ++ l /\ collected st rows l (snd (sessions_loop rows acc st)).
Proof.
  induction rows as [ | session rest IH]; intros acc st l' Hl.
  - cbn in Hl. injection Hl as <-. exists []. rewrite app_nil_r.
    split; [reflexivity | constructor].
  - rewrite get_sessions_loop_step in Hl |- *.
    destruct (py_getitem session "meeting_key") as [mk | ] eqn:Hmk;
      [ | discriminate].
    cbn zeta in Hl |- *.
    destruct (fst (get_response http_get (meeting_url mk) st)) eqn:Hv;
      try (apply IH in Hl as (l0 & -> & Hc); exists l0;
           split; [reflexivity | eapply collected_skip; eassumption]);
      (destruct (session_of session _) as [sess | ] eqn:Hsess;
       [ | discriminate];
       apply IH in Hl as (l0 & -> & Hc); exists (sess :: l0);
       rewrite <- app_assoc; split; [reflexivity | ];
       eapply collected_keep; [exact Hmk | | | exact Hc];
       rewrite Hv; [discriminate | exact Hsess]).
Qed.

(** X6. When the response is a list of rows, what [get_sessions]
    returns is collected from the rows in their order: a row whose
    meeting request comes back as [None] is left out, and every other row
    gives exactly one session, built from that row and the response for
    its meeting. So the list holds at most one session for each row. *)
Theorem get_sessions_at_most_rows (date_start : string)
    (session_type : option string) (st : net W) (rows : list pyval)
    (l : list Session) :
  let url := get_sessions_url date_start session_type in
  fst (get_response http_get url st) = PList rows ->
  fst (get_sessions http_get validate_Session py_repr date_start session_type st)
  = Ok l ->
  collected (snd (get_response http_get url st)) rows l
    (snd (get_sessions http_get validate_Session py_repr date_start
            session_type st))
  /\ (List.length l <= List.length rows)%nat.
Proof.
  intros url Hrows Hl. unfold get_sessions in Hl |- *. fold url in Hl |- *.
  rewrite bind_fetch, Hrows, bind_or_raise in Hl |- *. cbn [py_iter] in Hl |- *.
  apply get_sessions_loop_collected in Hl as (l0 & -> & Hc).
  cbn [app]. split; [exact Hc | exact (collected_length _ _ _ _ Hc)].
Qed.

Definition on_api (l : list string) : Prop :=
  Forall (fun u => String.prefix BASE_URL u = true) l.

Lemma get_response_on_api (path : string) (st : net W) :
  exists new,
    attempts (snd (get_response http_get (BASE_URL ++ path) st))
    = attempts st ++ new
    /\ on_api new.
Proof.
  destruct (get_response_attempts_only W http_get (BASE_URL ++ path) st)
    as (n & _ & _ & Heq).
  exists (repeat (BASE_URL ++ path)%string n). split; [exact Heq | ].
  apply Forall_forall. intros u Hu. apply repeat_spec in Hu as ->.
  apply prefix_app.
Qed.

Lemma get_sessions_loop_on_api (rows : list pyval) :
  forall (acc : list Session) (st : net W),
    exists new,
      attempts (snd (sessions_loop rows acc st)) = attempts st ++ new
      /\ on_api new.
Proof.
  induction rows as [ | session rest IH]; intros acc st.
  - exists []. cbn. rewrite app_nil_r. split; [reflexivity | constructor].
  - rewrite get_sessions_loop_step.
    destruct (py_getitem session "meeting_key") as [mk | ].
    + cbn zeta.
      destruct (get_response_on_api
                  ("/meetings?meeting_key=" ++ py_str py_repr mk) st)
        as (n1 & H1 & Hp1).
      fold (meeting_url mk) in H1.
      assert (Hrec : forall acc',
        exists new,
          attempts (snd (sessions_loop rest acc'
                           (snd (get_response http_get (meeting_url mk) st))))
          = attempts st ++ new
          /\ on_api new).
      { intros acc'.
        destruct (IH acc' (snd (get_response http_get (meeting_url mk) st)))
          as (n2 & H2 & Hp2).
        exists (n1 ++ n2). rewrite H2, H1, app_assoc.
        split; [reflexivity | apply Forall_app; split; assumption]. }
      destruct (fst (get_response http_get (meeting_url mk) st));
        try apply Hrec;
        (destruct (session_of session _);
         [apply Hrec | exists n1; split; assumption]).
    + exists []. cbn. rewrite app_nil_r. split; [reflexivity | constructor].
Qed.

(** X7. Every request that a tool makes goes to the OpenF1 API: the
    URLs it adds to those already requested all start with [BASE_URL],
    those that [get_sessions] builds from the meeting keys of the
    response included, and none of the earlier ones is removed. *)
Theorem requests_stay_on_api (st : net W) :
  (forall date_start session_type,
      exists new,
        attempts (snd (get_sessions http_get validate_Session py_repr
                         date_start session_type st))
        = attempts st ++ new
        /\ on_api new)
  /\ (forall session_key driver_number,
      exists new,
        attempts (snd (get_drivers http_get validate_Driver session_key
                         driver_number st))
        = attempts st ++ new
        /\ on_api new)
  /\ (forall session_key driver_number,
      exists new,
        attempts (snd (get_laps http_get validate_Lap session_key
                         driver_number st))
        = attempts st ++ new
        /\ on_api new)
  /\ (forall session_key start_date,
      exists new,
        attempts (snd (get_track_conditions http_get validate_TrackConditions
                         session_key start_date st))
        = attempts st ++ new
        /\ on_api new).
Proof.
  assert (Hurl_s : forall d t, exists path,
             get_sessions_url d t = (BASE_URL ++ path)%string).
  { intros d [t | ]; unfold get_sessions_url; cbv zeta;
      [destruct (truthy_str t) | ]; eexists;
      rewrite ?string_app_assoc; reflexivity. }
  assert (Hurl_d : forall k n, exists path,
             get_drivers_url k n = (BASE_URL ++ path)%string).
  { intros k [n | ]; unfold get_drivers_url; cbv zeta;
      [destruct (n =? 0) | ]; eexists;
      rewrite ?string_app_assoc; reflexivity. }
  assert (Hurl_t : forall k d, exists path,
             get_track_conditions_url k d = (BASE_URL ++ path)%string).
  { intros k [d | ]; unfold get_track_conditions_url; cbv zeta;
      [destruct (truthy_str d) | ]; eexists;
      rewrite ?string_app_assoc; reflexivity. }
  split; [ | split; [ | split]].
  - intros date_start session_type.
    destruct (Hurl_s date_start session_type) as (path & Hpath).
    destruct (get_response_on_api path st) as (n1 & H1 & Hp1).
    unfold get_sessions. rewrite bind_fetch, Hpath.
    destruct (fst (get_response http_get (BASE_URL ++ path) st));
      try (exists n1; split; assumption);
      rewrite bind_or_raise; cbn [py_iter];
      match goal with
      | |- context [get_sessions_loop _ _ _ ?rows ?acc ?s1] =>
          destruct (get_sessions_loop_on_api rows acc s1) as (n2 & H2 & Hp2);
          exists (n1 ++ n2); rewrite H2, H1, app_assoc;
          split; [reflexivity | apply Forall_app; split; assumption]
      end.
  - intros session_key driver_number. rewrite get_drivers_state.
    destruct (Hurl_d session_key driver_number) as (path & ->).
    apply get_response_on_api.
  - intros session_key driver_number. rewrite get_laps_state.
    unfold get_laps_url. apply get_response_on_api.
  - intros session_key start_date. rewrite get_track_conditions_state.
    destruct (Hurl_t session_key start_date) as (path & ->).
    apply get_response_on_api.
Qed.

(** X8. On an endpoint that fails [max_retries] requests in a row, a
    tool gives up after exactly [max_retries] requests of its URL and
    returns the empty list. *)
Theorem tools_on_dead_endpoint (st : net W) (w1 : W) :
  let n := Z.to_nat max_retries in
  (forall date_start session_type,
      let url := get_sessions_url date_start session_type in
      fails_k http_get n url (env st) w1 ->
      get_sessions http_get validate_Session py_repr date_start session_type st
      = (Ok [], mk_net w1 (attempts st ++ repeat url n)))
  /\ (forall session_key driver_number,
      let url := get_drivers_url session_key driver_number in
      fails_k http_get n url (env st) w1 ->
      get_drivers http_get validate_Driver session_key driver_number st
      = (Ok [], mk_net w1 (attempts st ++ repeat url n)))
  /\ (forall session_key driver_number,
      let url := get_laps_url session_key driver_number in
      fails_k http_get n url (env st) w1 ->
      get_laps http_get validate_Lap session_key driver_number st
      = (Ok [], mk_net w1 (attempts st ++ repeat url n)))
  /\ (forall session_key start_date,
      let url := get_track_conditions_url session_key start_date in
      fails_k http_get n url (env st) w1 ->
      get_track_conditions http_get validate_TrackConditions session_key
        start_date st
      = (Ok [], mk_net w1 (attempts st ++ repeat url n))).
Proof.
  cbv zeta. split; [ | split; [ | split]]; intros a b Hfail.
  - unfold get_sessions.
    rewrite bind_fetch, (get_response_exhausted W http_get _ st w1 Hfail).
    reflexivity.
  - unfold get_drivers.
    rewrite bind_fetch, (get_response_exhausted W http_get _ st w1 Hfail).
    reflexivity.
  - unfold get_laps.
    rewrite bind_fetch, (get_response_exhausted W http_get _ st w1 Hfail).
    reflexivity.
  - unfold get_track_conditions.
    rewrite bind_fetch, (get_response_exhausted W http_get _ st w1 Hfail).
    reflexivity.
Qed.

(** The requests of a tool that fetches once: its URL, once to
    [max_retries] times. *)
Lemma get_drivers_requests (session_key : Z) (driver_number : option Z)
    (st : net W) :
  exists k : nat,
    (1 <= k)%nat /\ Z.of_nat k <= max_retries
    /\ attempts (snd (get_drivers http_get validate_Driver session_key
                        driver_number st))
       = attempts st ++ repeat (get_drivers_url session_key driver_number) k.
Proof. rewrite get_drivers_state. apply get_response_attempts_only. Qed.

Lemma get_track_conditions_requests (session_key : Z)
    (start_date : option string) (st : net W) :
  exists k : nat,
    (1 <= k)%nat /\ Z.of_nat k <= max_retries
    /\ attempts (snd (get_track_conditions http_get validate_TrackConditions
                        session_key start_date st))
       = attempts st
           ++ repeat (get_track_conditions_url session_key start_date) k.
Proof. rewrite get_track_conditions_state. apply get_response_attempts_only. Qed.

(** The requests of [get_sessions]: first the URL of the sessions, once
    to [max_retries] times, then those for the meetings. *)
Lemma get_sessions_requests (date_start : string) (session_type : option string)
    (st : net W) :
  exists (k : nat) (new : list string),
    (1 <= k)%nat /\ Z.of_nat k <= max_retries
    /\ attempts (snd (get_sessions http_get validate_Session py_repr date_start
                        session_type st))
       = attempts st
           ++ repeat (get_sessions_url date_start session_type) k ++ new.
Proof.
  destruct (get_response_attempts_only W http_get
              (get_sessions_url date_start session_type) st)
    as (k & Hk1 & Hk2 & Hk).
  unfold get_sessions. rewrite bind_fetch.
  destruct (fst (get_response http_get _ st));
    try (exists k, []; rewrite app_nil_r; repeat split; assumption);
    rewrite bind_or_raise; cbn [py_iter];
    try (exists k, []; rewrite app_nil_r; repeat split; assumption);
    match goal with
    | |- context [get_sessions_loop _ _ _ ?rows ?acc ?s1] =>
        destruct (get_sessions_loop_on_api rows acc s1) as (new & Hnew & _);
        exists k, new; rewrite Hnew, Hk, <- app_assoc; repeat split; assumption
    end.
Qed.

(** X9. An empty string given as [session_type] or as [start_date] is
    no filter: the tool requests the URL without the filter, the one it
    requests with [None], and behaves the same; a string that is not
    empty is added to the URL that the tool requests. *)
Theorem empty_filter_is_no_filter (date_start : string) (session_key : Z)
    (t : string) (st : net W) :
  let sessions := (BASE_URL ++ "/sessions?date_start>=" ++ date_start)%string in
  let weather := (BASE_URL ++ "/weather?session_key=" ++ str_int session_key)%string in
  get_sessions http_get validate_Session py_repr date_start (Some "") st
  = get_sessions http_get validate_Session py_repr date_start None st
  /\ (exists (k : nat) (new : list string),
         (1 <= k)%nat /\ Z.of_nat k <= max_retries
         /\ attempts (snd (get_sessions http_get validate_Session py_repr
                             date_start (Some "") st))
            = attempts st ++ repeat sessions k ++ new)
  /\ get_track_conditions http_get validate_TrackConditions session_key
       (Some "") st
     = get_track_conditions http_get validate_TrackConditions session_key None st
  /\ (exists k : nat,
         (1 <= k)%nat /\ Z.of_nat k <= max_retries
         /\ attempts (snd (get_track_conditions http_get
                             validate_TrackConditions session_key (Some "") st))
            = attempts st ++ repeat weather k)
  /\ (t <> "" ->
      (exists (k : nat) (new : list string),
          (1 <= k)%nat /\ Z.of_nat k <= max_retries
          /\ attempts (snd (get_sessions http_get validate_Session py_repr
                              date_start (Some t) st))
             = attempts st
                 ++ repeat (sessions ++ "&session_type=" ++ t)%string k ++ new)
      /\ (exists k : nat,
            (1 <= k)%nat /\ Z.of_nat k <= max_retries
            /\ attempts (snd (get_track_conditions http_get
                                validate_TrackConditions session_key (Some t) st))
               = attempts st ++ repeat (weather ++ "&date>=" ++ t)%string k)).
Proof.
  cbv zeta. split; [reflexivity | ].
  split; [exact (get_sessions_requests date_start (Some "") st) | ].
  split; [reflexivity | ].
  split; [exact (get_track_conditions_requests session_key (Some "") st) | ].
  intros Ht. split.
  - pose proof (get_sessions_requests date_start (Some t) st) as H.
    unfold get_sessions_url in H. destruct t; [contradiction | exact H].
  - pose proof (get_track_conditions_requests session_key (Some t) st) as H.
    unfold get_track_conditions_url in H.
    destruct t; [contradiction | exact H].
Qed.

(** C10. With [driver_number = 0], [get_drivers] leaves the filter out:
    it requests the URL of all the drivers of the session, the one it
    requests with no driver number, at least once and nothing else, and
    behaves as that call does; with a driver number other than zero it
    requests that URL with the filter added. *)
Theorem get_drivers_zero_unfiltered (session_key n : Z) (st : net W) :
  let all := (BASE_URL ++ "/drivers?session_key=" ++ str_int session_key)%string in
  let filtered := (all ++ "&driver_number=" ++ str_int n)%string in
  get_drivers http_get validate_Driver session_key (Some 0) st
  = get_drivers http_get validate_Driver session_key None st
  /\ snd (get_drivers http_get validate_Driver session_key (Some 0) st)
     = snd (get_response http_get all st)
  /\ (exists k : nat,
         (1 <= k)%nat /\ Z.of_nat k <= max_retries
         /\ attempts (snd (get_drivers http_get validate_Driver session_key
                             (Some 0) st))
            = attempts st ++ repeat all k)
  /\ (exists k : nat,
         (1 <= k)%nat /\ Z.of_nat k <= max_retries
         /\ attempts (snd (get_drivers http_get validate_Driver session_key
                             None st))
            = attempts st ++ repeat all k)
  /\ (n <> 0 ->
      snd (get_drivers http_get validate_Driver session_key (Some n) st)
      = snd (get_response http_get filtered st)
      /\ exists k : nat,
          (1 <= k)%nat /\ Z.of_nat k <= max_retries
          /\ attempts (snd (get_drivers http_get validate_Driver session_key
                              (Some n) st))
             = attempts st ++ repeat filtered k).
Proof.
  cbv zeta. split; [reflexivity | ].
  split; [exact (get_drivers_state session_key (Some 0) st) | ].
  split; [exact (get_drivers_requests session_key (Some 0) st) | ].
  split; [exact (get_drivers_requests session_key None st) | ].
  intros Hn.
  pose proof (get_drivers_state session_key (Some n) st) as Hstate.
  pose proof (get_drivers_requests session_key (Some n) st) as Hreq.
  unfold get_drivers_url in Hstate, Hreq. cbv zeta in Hstate, Hreq.
  destruct (Z.eqb_spec n 0) as [-> | _]; [contradiction | ].
  split; [exact Hstate | exact Hreq].
Qed.

Definition lacks_segments (lap : pyval) : Prop :=
  py_getitem lap "segments_sector_1" = None
  \/ py_getitem lap "segments_sector_2" = None
  \/ py_getitem lap "segments_sector_3" = None.

Lemma segments_missing (lap : pyval) (key : string) (st : net W) :
  py_getitem lap key = None -> fst (segments W lap key st) = Raise.
Proof. intros Hkey. unfold segments. rewrite bind_or_raise, Hkey. reflexivity. Qed.

Lemma get_sessions_loop_missing_key (rows : list pyval) :
  Exists (fun row => py_getitem row "meeting_key" = None) rows ->
  forall acc st, fst (sessions_loop rows acc st) = Raise.
Proof.
  induction rows as [ | session rest IH]; intros Hex acc st;
    [inversion Hex | ].
  rewrite get_sessions_loop_step.
  destruct (py_getitem session "meeting_key") as [mk | ] eqn:Hmk;
    [ | reflexivity].
  inversion Hex as [x l Hhead | x l Htail]; subst; [congruence | ].
  cbn zeta.
  destruct (fst (get_response http_get (meeting_url mk) st));
    try (apply IH; exact Htail);
    (destruct (session_of session _); [apply IH; exact Htail | reflexivity]).
Qed.

Lemma get_laps_loop_missing_key (rows : list pyval) :
  Exists lacks_segments rows ->
  forall laps (st : net W),
    fst (get_laps_loop validate_Lap rows laps st) = Raise.
Proof.
  induction rows as [ | lap rest IH]; intros Hex laps st; [inversion Hex | ].
  cbn [get_laps_loop]. rewrite bind_or_raise.
  destruct (py_mapping lap) as [d | ]; [ | reflexivity].
  rewrite bind_segments.
  destruct (fst (segments W lap "segments_sector_1" st)) as [v1 | ] eqn:H1;
    [ | reflexivity].
  rewrite bind_segments.
  destruct (fst (segments W lap "segments_sector_2" st)) as [v2 | ] eqn:H2;
    [ | reflexivity].
  rewrite bind_segments.
  destruct (fst (segments W lap "segments_sector_3" st)) as [v3 | ] eqn:H3;
    [ | reflexivity].
  inversion Hex as [x l Hhead | x l Htail]; subst.
  - destruct Hhead as [Hk | [Hk | Hk]];
      apply (segments_missing lap _ st) in Hk; congruence.
  - rewrite bind_or_raise. destruct (validate_Lap _); [ | reflexivity].
    apply IH. exact Htail.
Qed.

(** X10. One malformed row fails the whole call: when a row of the
    response has no [meeting_key], [get_sessions] raises, and when a row
    has not all three of its segment lists, [get_laps] raises, whatever
    the other rows hold; neither returns the rows that were well
    formed. *)
Theorem malformed_row_raises (st : net W) (rows : list pyval) :
  (forall date_start session_type,
      fst (get_response http_get (get_sessions_url date_start session_type) st)
      = PList rows ->
      Exists (fun row => py_getitem row "meeting_key" = None) rows ->
      fst (get_sessions http_get validate_Session py_repr date_start
             session_type st)
      = Raise)
  /\ (forall session_key driver_number,
      fst (get_response http_get (get_laps_url session_key driver_number) st)
      = PList rows ->
      Exists lacks_segments rows ->
      fst (get_laps http_get validate_Lap session_key driver_number st) = Raise).
Proof.
  split; intros a b Hrows Hex.
  - unfold get_sessions. rewrite bind_fetch, Hrows, bind_or_raise.
    cbn [py_iter]. apply get_sessions_loop_missing_key. exact Hex.
  - unfold get_laps. rewrite bind_fetch, Hrows, bind_or_raise.
    cbn [py_iter]. apply get_laps_loop_missing_key. exact Hex.
Qed.

End ToolCoverage.

(** ** The conversation loop, further *)

(** One test of the guard of the loop. *)
Lemma while_loop_step (World : Type)
    (create :
      string -> list Client.message -> list (list (string * pyval)) -> Z ->
      World -> list Client.response_block * World)
    (call_tool : string -> pyval -> World -> list string * World)
    (tools : list (list (string * pyval))) (max_tool_calls : Z)
    (s : Client.state World) :
  Client.while_loop create call_tool tools max_tool_calls s =
  if Client.guard max_tool_calls s
  then Client.while_loop create call_tool tools max_tool_calls
         (Client.round create call_tool tools s)
  else s.
Proof. exact (while_loop_unfold World create call_tool tools max_tool_calls s). Qed.

Section OrchestratorCoverage.

Import Client.

Variable World : Type.
Variable create :
  string -> list message -> list (list (string * pyval)) -> Z -> World ->
  list response_block * World.
Variable list_tools : World -> list Tool * World.
Variable call_tool : string -> pyval -> World -> list string * World.

Abbreviation state := (state World).
Abbreviation handle := (handle_block call_tool).
Abbreviation rnd := (round create call_tool).
Abbreviation loop := (while_loop create call_tool).
Abbreviation run := (process_query create list_tools call_tool).
Abbreviation start := (entry World list_tools).
Abbreviation ext_of := (extends World).
Abbreviation loop_ind := (while_loop_ind World create call_tool).

Lemma extends_same (s s' : state) (e1 e2 : list event) :
  ext_of s s' e1 -> ext_of s s' e2 -> e1 = e2.
Proof.
  intros (H1 & _) (H2 & _). rewrite H1 in H2.
  apply app_inv_head in H2. exact H2.
Qed.

Lemma run_log (query : string) (max_tool_calls : Z) (history : list message)
    (w : World) (ext : list event) :
  ext_of (start query history w)
    (loop (map available_tool (fst (list_tools w))) max_tool_calls
       (start query history w)) ext ->
  log (run query max_tool_calls history w)
  = [ev_append (query_message query); ev_list_tools] ++ ext.
Proof.
  intros (Hl & _). rewrite process_query_entry, Hl. reflexivity.
Qed.

(** X11. [process_query] returns only when the guard of its loop
    fails: in the state it returns, [done] is set or the counter has
    reached [max_tool_calls]. While neither holds, it goes on calling the
    model. *)
Theorem process_query_exit (query : string) (max_tool_calls : Z)
    (history : list message) (w : World) :
  done (run query max_tool_calls history w) = true
  \/ max_tool_calls <= tool_calls (run query max_tool_calls history w).
Proof.
  rewrite process_query_entry.
  apply (loop_ind (map available_tool (fst (list_tools w))) max_tool_calls
           (fun _ s' => done s' = true \/ max_tool_calls <= tool_calls s')).
  - intros s Hguard. unfold guard in Hguard.
    apply andb_false_iff in Hguard as [Hd | Hlt].
    + left. apply negb_false_iff. exact Hd.
    + right. apply Z.ltb_ge. exact Hlt.
  - intros s _ IH. exact IH.
Qed.

(** A round after which the loop goes on has called a tool. *)
Lemma round_continues (tools : list (list (string * pyval)))
    (max_tool_calls : Z) (s : state) (e1 : list event) :
  ext_of s (rnd tools s)
    (ev_create (messages s)
       (fst (get_anthropic_response create (messages s) tools 1000 (world s)))
       :: e1) ->
  guard max_tool_calls (rnd tools s) = true ->
  (1 <= executions e1)%nat.
Proof.
  intros (_ & _ & Ht & _) Hguard. unfold guard in Hguard.
  apply andb_prop in Hguard as [Hd _]. apply negb_true_iff in Hd.
  destruct (round_progress World create call_tool tools s) as [_ Hpr].
  specialize (Hpr Hd). rewrite Ht in Hpr.
  change (ev_create ?a ?b :: e1) with ([ev_create a b] ++ e1) in Hpr.
  rewrite executions_app in Hpr. cbn in Hpr. lia.
Qed.

Lemma while_loop_calls (tools : list (list (string * pyval)))
    (max_tool_calls : Z) (s : state) :
  exists ext,
    ext_of s (loop tools max_tool_calls s) ext
    /\ (inferences ext
        <= executions ext + (if guard max_tool_calls s then 1 else 0))%nat.
Proof.
  apply (loop_ind tools max_tool_calls
           (fun s s' => exists ext,
                ext_of s s' ext
                /\ (inferences ext
                    <= executions ext
                       + (if guard max_tool_calls s then 1 else 0))%nat)).
  - intros s0 Hguard. exists []. split; [apply extends_refl | cbn; lia].
  - intros s0 Hguard (e2 & H2 & I2). rewrite Hguard.
    destruct (round_extends World create call_tool tools s0)
      as (e1 & H1 & I1 & _).
    eexists. split; [eapply extends_trans; eassumption | ].
    rewrite inferences_app, executions_app.
    change (ev_create ?a ?b :: e1) with ([ev_create a b] ++ e1).
    rewrite inferences_app, executions_app, I1. cbn [inferences executions
      filter is_create is_call_tool List.length Nat.add].
    destruct (guard max_tool_calls (rnd tools s0)) eqn:Hnext; [ | lia].
    pose proof (round_continues tools max_tool_calls s0 e1 H1 Hnext). lia.
Qed.

(** [spaced seen l]: in the log [l], a tool is called between any two
    calls of the model, and before the first one unless [seen] is
    true. *)
Fixpoint spaced (seen : bool) (l : list event) : Prop :=
  match l with
  | [] => True
  | ev_create _ _ :: l' => seen = true /\ spaced false l'
  | ev_call_tool _ _ :: l' => spaced true l'
  | _ :: l' => spaced seen l'
  end.

(** Whether a tool was called since the last call of the model, at the
    end of [l]. *)
Fixpoint seen_after (seen : bool) (l : list event) : bool :=
  match l with
  | [] => seen
  | ev_create _ _ :: l' => seen_after false l'
  | ev_call_tool _ _ :: l' => seen_after true l'
  | _ :: l' => seen_after seen l'
  end.

Lemma spaced_app (l1 l2 : list event) :
  forall seen,
    spaced seen (l1 ++ l2)
    <-> spaced seen l1 /\ spaced (seen_after seen l1) l2.
Proof.
  induction l1 as [ | e l1 IH]; intros seen; cbn [app]; [cbn; tauto | ].
  destruct e; cbn; rewrite ?IH; tauto.
Qed.

Lemma spaced_no_inference (l : list event) :
  inferences l = 0%nat -> forall seen, spaced seen l.
Proof.
  induction l as [ | e l IH]; intros Hl seen; [exact I | ].
  destruct e; cbn in *; try discriminate; apply IH; exact Hl.
Qed.

Lemma seen_after_kept (l : list event) :
  inferences l = 0%nat -> seen_after true l = true.
Proof.
  induction l as [ | e l IH]; intros Hl; [reflexivity | ].
  destruct e; cbn in *; try discriminate; apply IH; exact Hl.
Qed.

Lemma seen_after_call (l : list event) :
  inferences l = 0%nat -> (1 <= executions l)%nat ->
  forall seen, seen_after seen l = true.
Proof.
  induction l as [ | e l IH]; intros Hl He seen; [cbn in He; lia | ].
  destruct e; cbn in *; try discriminate;
    try (apply IH; [exact Hl | exact He]).
  apply seen_after_kept. exact Hl.
Qed.

Lemma spaced_gap (post : list event) (sent : list message)
    (r : list response_block) (mid : list event) :
  forall seen,
    spaced seen (mid ++ ev_create sent r :: post) ->
    seen = true \/ (1 <= executions mid)%nat.
Proof.
  induction mid as [ | e mid IH]; intros seen Hs.
  - cbn in Hs. left. tauto.
  - destruct e; cbn in Hs;
      try (destruct (IH _ Hs) as [Hseen | Hex];
           [left; exact Hseen | right; exact Hex]).
    + left. tauto.
    + right. unfold executions. cbn. lia.
Qed.

Lemma spaced_suffix (pre l : list event) :
  forall seen, spaced seen (pre ++ l) -> exists seen', spaced seen' l.
Proof.
  intros seen Hs. apply spaced_app in Hs as [_ Hs]. eauto.
Qed.

Lemma while_loop_spaced (tools : list (list (string * pyval)))
    (max_tool_calls : Z) (s : state) :
  exists ext, ext_of s (loop tools max_tool_calls s) ext /\ spaced true ext.
Proof.
  apply (loop_ind tools max_tool_calls
           (fun s s' => exists ext, ext_of s s' ext /\ spaced true ext)).
  - intros s0 _. exists []. split; [apply extends_refl | exact I].
  - intros s0 _ (e2 & H2 & S2).
    destruct (round_extends World create call_tool tools s0)
      as (e1 & H1 & I1 & _).
    eexists. split; [eapply extends_trans; eassumption | ].
    apply spaced_app. split.
    + cbn. split; [reflexivity | apply spaced_no_inference; exact I1].
    + cbn [seen_after].
      destruct (guard max_tool_calls (rnd tools s0)) eqn:Hnext.
      * rewrite seen_after_call;
          [exact S2 | exact I1
           | exact (round_continues tools max_tool_calls s0 e1 H1 Hnext)].
      * rewrite (while_loop_stop World create call_tool tools max_tool_calls
                   _ Hnext) in H2.
        rewrite (extends_same _ _ _ _ H2 (extends_refl World _)). exact I.
Qed.

(** X12. In the log of a query a tool is called between any two calls
    of the model: every call of the model but the last is followed, before
    the next one, by the call of at least one tool. So the model is called
    at most once more than tools are called. *)
Theorem inferences_within_executions (query : string) (max_tool_calls : Z)
    (history : list message) (w : World) :
  (forall pre sent r mid sent' r' post,
      log (run query max_tool_calls history w)
      = pre ++ ev_create sent r :: mid ++ ev_create sent' r' :: post ->
      (1 <= executions mid)%nat)
  /\ (inferences (log (run query max_tool_calls history w))
      <= executions (log (run query max_tool_calls history w)) + 1)%nat.
Proof.
  split.
  - intros pre sent r mid sent' r' post Hlog.
    destruct (while_loop_spaced (map available_tool (fst (list_tools w)))
                max_tool_calls (start query history w)) as (ext & Hext & Hs).
    rewrite (run_log query max_tool_calls history w ext Hext) in Hlog.
    assert (Hall : spaced true
                     ([ev_append (query_message query); ev_list_tools] ++ ext))
      by (apply spaced_app; split; [exact I | exact Hs]).
    rewrite Hlog in Hall. apply spaced_suffix in Hall as (seen' & Hall).
    cbn in Hall. destruct Hall as [_ Hall].
    apply spaced_gap in Hall as [Hseen | Hex]; [discriminate | exact Hex].
  - destruct (while_loop_calls (map available_tool (fst (list_tools w)))
                max_tool_calls (start query history w)) as (ext & Hext & Hle).
    rewrite (run_log query max_tool_calls history w ext Hext).
    rewrite inferences_app, executions_app. cbn.
    destruct (guard max_tool_calls (start query history w)); lia.
Qed.

(** [replay acc l]: going through the log [l] from the history [acc],
    every call of the model is sent the history as it stands then. *)
Fixpoint replay (acc : list message) (l : list event) : Prop :=
  match l with
  | [] => True
  | ev_create sent _ :: l' => sent = acc /\ replay acc l'
  | ev_append m :: l' => replay (acc ++ [m]) l'
  | _ :: l' => replay acc l'
  end.

Lemma replay_app (l1 l2 : list event) :
  forall acc,
    replay acc (l1 ++ l2) <-> replay acc l1 /\ replay (acc ++ appended l1) l2.
Proof.
  induction l1 as [ | e l1 IH]; intros acc.
  - cbn. rewrite app_nil_r. tauto.
  - destruct e; cbn; rewrite ?IH, <- ?app_assoc; cbn; tauto.
Qed.

Lemma replay_no_inference (l : list event) :
  inferences l = 0%nat -> forall acc, replay acc l.
Proof.
  induction l as [ | e l IH]; intros Hl acc; [exact I | ].
  destruct e; cbn in *; try discriminate; apply IH; exact Hl.
Qed.

Lemma replay_split (l : list event) :
  forall acc pre sent r post,
    replay acc l ->
    l = pre ++ ev_create sent r :: post ->
    sent = acc ++ appended pre.
Proof.
  induction l as [ | e l IH]; intros acc pre sent r post Hl Heq.
  - destruct pre; discriminate.
  - destruct pre as [ | e' pre]; cbn in Heq; injection Heq as -> Heq.
    + cbn in Hl. cbn. rewrite app_nil_r. tauto.
    + destruct e'; cbn in Hl |- *;
        try (eapply IH; [ | exact Heq]; tauto).
      rewrite (IH _ _ _ _ _ Hl Heq), <- app_assoc. reflexivity.
Qed.

Lemma while_loop_replay (tools : list (list (string * pyval)))
    (max_tool_calls : Z) (s : state) :
  exists ext,
    ext_of s (loop tools max_tool_calls s) ext /\ replay (messages s) ext.
Proof.
  apply (loop_ind tools max_tool_calls
           (fun s s' => exists ext, ext_of s s' ext /\ replay (messages s) ext)).
  - intros s0 _. exists []. split; [apply extends_refl | exact I].
  - intros s0 _ (e2 & H2 & R2).
    destruct (round_extends World create call_tool tools s0)
      as (e1 & H1 & I1 & _).
    eexists. split; [eapply extends_trans; eassumption | ].
    apply replay_app. split.
    + cbn. split; [reflexivity | apply replay_no_inference; exact I1].
    + destruct H1 as (_ & Hm & _). rewrite <- Hm. exact R2.
Qed.

(** X13. Every call of the model is sent the whole conversation so far:
    the history that the query started from, followed by every message
    appended since, the query first, in the order of their appending. *)
Theorem model_sees_whole_history (query : string) (max_tool_calls : Z)
    (history : list message) (w : World) (pre post : list event)
    (sent : list message) (r : list response_block) :
  log (run query max_tool_calls history w) = pre ++ ev_create sent r :: post ->
  sent = history ++ appended pre.
Proof.
  intros Hlog.
  destruct (while_loop_replay (map available_tool (fst (list_tools w)))
              max_tool_calls (start query history w)) as (ext & Hext & Hr).
  rewrite (run_log query max_tool_calls history w ext Hext) in Hlog.
  apply (replay_split _ history pre sent r post) in Hlog; [exact Hlog | ].
  apply replay_app. split; [exact I | exact Hr].
Qed.

Definition is_list_tools (e : event) : bool :=
  match e with ev_list_tools => true | _ => false end.

Lemma handle_block_no_list_tools (s : state) (c : response_block) :
  exists ext,
    log (handle s c) = log s ++ ext /\ filter is_list_tools ext = [].
Proof.
  destruct c as [text | id name input tu | ].
  - eexists. cbn. rewrite <- app_assoc. split; reflexivity.
  - destruct tu as [t | ]; cbn -[join_space truthy_str];
      [destruct (truthy_str t) | ]; cbn -[join_space truthy_str];
      destruct (call_tool name input (world s)) as [texts w];
      cbn -[join_space truthy_str];
      destruct (truthy_str (join_space texts)); cbn -[join_space truthy_str];
      rewrite <- !app_assoc; eexists; split; reflexivity.
  - exists []. cbn. rewrite app_nil_r. split; reflexivity.
Qed.

Lemma for_loop_no_list_tools (r : list response_block) (s : state) :
  exists ext,
    log (fold_left handle r s) = log s ++ ext /\ filter is_list_tools ext = [].
Proof.
  revert s. induction r as [ | c r IH]; intros s.
  - exists []. cbn. rewrite app_nil_r. split; reflexivity.
  - destruct (handle_block_no_list_tools s c) as (e1 & H1 & F1).
    destruct (IH (handle s c)) as (e2 & H2 & F2).
    exists (e1 ++ e2). cbn [fold_left]. rewrite H2, H1, app_assoc, filter_app, F1, F2.
    split; reflexivity.
Qed.

Lemma while_loop_no_list_tools (tools : list (list (string * pyval)))
    (max_tool_calls : Z) (s : state) :
  exists ext,
    log (loop tools max_tool_calls s) = log s ++ ext
    /\ filter is_list_tools ext = [].
Proof.
  apply (loop_ind tools max_tool_calls
           (fun s s' => exists ext,
                log s' = log s ++ ext /\ filter is_list_tools ext = [])).
  - intros s0 _. exists []. rewrite app_nil_r. split; reflexivity.
  - intros s0 _ (e2 & H2 & F2).
    assert (H1 : exists e1,
               log (rnd tools s0) = log s0 ++ e1
               /\ filter is_list_tools e1 = []).
    { unfold round.
      destruct (get_anthropic_response create (messages s0) tools 1000 (world s0))
        as [r w].
      match goal with
      | |- context [fold_left handle r ?s1] =>
          destruct (for_loop_no_list_tools r s1) as (e & He & Fe)
      end.
      eexists. rewrite He. cbn. rewrite <- app_assoc. split; [reflexivity | ].
      cbn. exact Fe. }
    destruct H1 as (e1 & H1 & F1).
    exists (e1 ++ e2). rewrite H2, H1, app_assoc, filter_app, F1, F2.
    split; reflexivity.
Qed.

(** X14. The tools are listed once in a query, before the first call of
    the model: the log holds one call of [list_tools], right after the
    appending of the query. *)
Theorem tools_listed_once (query : string) (max_tool_calls : Z)
    (history : list message) (w : World) :
  exists ext,
    log (run query max_tool_calls history w)
    = ev_append (query_message query) :: ev_list_tools :: ext
    /\ filter is_list_tools ext = []
    /\ List.length (filter is_list_tools (log (run query max_tool_calls history w)))
       = 1%nat.
Proof.
  rewrite process_query_entry.
  destruct (while_loop_no_list_tools (map available_tool (fst (list_tools w)))
              max_tool_calls (start query history w)) as (ext & Hl & Hf).
  exists ext. rewrite Hl. cbn. rewrite Hf. repeat split.
Qed.

(** A model that asks for exactly one tool in every response, and tools
    that always return some text. *)
Definition always_one_tool : Prop :=
  forall model msgs tools max_tokens w,
  exists id name input tu,
    fst (create model msgs tools max_tokens w) = [ToolUseBlock id name input tu].

Definition tools_always_answer : Prop :=
  forall name input w,
    truthy_str (join_space (fst (call_tool name input w))) = true.

Lemma round_one_tool (tools : list (list (string * pyval))) (s : state) :
  always_one_tool -> tools_always_answer ->
  done (rnd tools s) = false
  /\ exists e1,
      ext_of s (rnd tools s)
        (ev_create (messages s)
           (fst (get_anthropic_response create (messages s) tools 1000 (world s)))
           :: e1)
      /\ inferences e1 = 0%nat /\ executions e1 = 1%nat.
Proof.
  intros Hone Hans.
  destruct (round_extends World create call_tool tools s) as (e1 & H1 & I1 & E1).
  destruct (Hone "claude-3-7-sonnet-20250219" (messages s) tools 1000 (world s))
    as (id & name & input & tu & Hr).
  split.
  - unfold round, get_anthropic_response.
    destruct (create "claude-3-7-sonnet-20250219" (messages s) tools 1000
                (world s)) as [r w1].
    cbn [fst] in Hr. subst r. cbn [fold_left].
    match goal with
    | |- done (handle ?s0 _) = false =>
        destruct (handle_tool_use World call_tool s0 id name input tu)
          as (_ & _ & Hd); rewrite Hd, Hans; reflexivity
    end.
  - exists e1. split; [exact H1 | split; [exact I1 | ]].
    rewrite E1. unfold get_anthropic_response. rewrite Hr. reflexivity.
Qed.

Lemma while_loop_uses_budget (tools : list (list (string * pyval)))
    (max_tool_calls : Z) (s : state) :
  always_one_tool -> tools_always_answer ->
  done s = false -> tool_calls s <= max_tool_calls ->
  exists ext,
    ext_of s (loop tools max_tool_calls s) ext
    /\ tool_calls (loop tools max_tool_calls s) = max_tool_calls
    /\ Z.of_nat (inferences ext) = max_tool_calls - tool_calls s
    /\ done (loop tools max_tool_calls s) = false.
Proof.
  intros Hone Hans.
  apply (loop_ind tools max_tool_calls
           (fun s s' =>
              done s = false -> tool_calls s <= max_tool_calls ->
              exists ext,
                ext_of s s' ext
                /\ tool_calls s' = max_tool_calls
                /\ Z.of_nat (inferences ext) = max_tool_calls - tool_calls s
                /\ done s' = false)).
  - intros s0 Hguard Hd Hle. unfold guard in Hguard. rewrite Hd in Hguard.
    cbn in Hguard. apply Z.ltb_ge in Hguard.
    exists []. split; [apply extends_refl | ].
    split; [lia | split; [cbn; lia | exact Hd]].
  - intros s0 Hguard IH Hd Hle. unfold guard in Hguard.
    apply andb_prop in Hguard as [_ Hlt]. apply Z.ltb_lt in Hlt.
    destruct (round_one_tool tools s0 Hone Hans) as (Hd1 & e1 & H1 & I1 & E1).
    assert (Ht1 : tool_calls (rnd tools s0) = tool_calls s0 + 1).
    { destruct H1 as (_ & _ & Ht & _). rewrite Ht.
      change (ev_create ?a ?b :: e1) with ([ev_create a b] ++ e1).
      rewrite executions_app, E1. cbn. lia. }
    destruct (IH Hd1) as (e2 & H2 & Hmax & I2 & Hd2); [lia | ].
    eexists. split; [eapply extends_trans; eassumption | ].
    split; [exact Hmax | ]. split; [ | exact Hd2].
    rewrite inferences_app.
    change (ev_create ?a ?b :: e1) with ([ev_create a b] ++ e1).
    rewrite inferences_app, I1. cbn [inferences filter is_create List.length].
    lia.
Qed.

(** X15. When the model asks for exactly one tool in every response and
    every tool returns some text, the query stops because its budget is
    used up, and uses all of it: the model is called exactly
    [max_tool_calls] times, [max_tool_calls] tools are called, and the
    counter ends equal to [max_tool_calls]. *)
Theorem eager_run_uses_budget (query : string) (max_tool_calls : Z)
    (history : list message) (w : World) :
  always_one_tool -> tools_always_answer ->
  0 <= max_tool_calls ->
  let s' := run query max_tool_calls history w in
  tool_calls s' = max_tool_calls
  /\ Z.of_nat (inferences (log s')) = max_tool_calls
  /\ Z.of_nat (executions (log s')) = max_tool_calls
  /\ done s' = false.
Proof.
  intros Hone Hans Hmax. cbn zeta.
  destruct (while_loop_uses_budget (map available_tool (fst (list_tools w)))
              max_tool_calls (start query history w) Hone Hans eq_refl Hmax)
    as (ext & Hext & Ht & Hi & Hd).
  pose proof (run_log query max_tool_calls history w ext Hext) as Hlog.
  pose proof Hext as (_ & _ & Hcount & _).
  rewrite <- process_query_entry in Ht, Hcount, Hd.
  rewrite Hlog, inferences_app, executions_app. cbn in Hi, Hcount |- *.
  repeat split; try lia. exact Hd.
Qed.

(** X16. The history only grows, query after query: a query leaves the
    history it was given in place and appends its own messages after it,
    the query first; a second query run on the result keeps all of that
    and appends in the same way. *)
Theorem history_append_only (q1 q2 : string) (max1 max2 : Z)
    (history : list message) (w : World) :
  let s1 := run q1 max1 history w in
  let s2 := run q2 max2 (messages s1) (world s1) in
  exists new1 new2,
    messages s1 = history ++ query_message q1 :: new1
    /\ messages s2
       = history ++ query_message q1 :: new1 ++ query_message q2 :: new2.
Proof.
  cbn zeta.
  destruct (process_query_extends World create list_tools call_tool q1 max1
              history w) as (e1 & _ & Hm1 & _).
  destruct (process_query_extends World create list_tools call_tool q2 max2
              (messages (run q1 max1 history w))
              (world (run q1 max1 history w))) as (e2 & _ & Hm2 & _).
  exists (appended e1), (appended e2). split; [exact Hm1 | ].
  rewrite Hm2, Hm1, <- app_assoc. reflexivity.
Qed.

End OrchestratorCoverage.

(** ** Joined tool results and server scripts *)

Lemma string_app_nil (a b : string) : (a ++ b)%string = "" -> a = "" /\ b = "".
Proof. destruct a; cbn; [auto | discriminate]. Qed.

(** X17. The joined result of a tool is empty, so that the placeholder
    is sent to the model and the round is marked done, exactly when the
    tool returned no piece of content at all or a single empty text; two
    or more pieces, even all empty, join to a string that is not
    empty. *)
Theorem join_space_empty (texts : list string) :
  truthy_str (join_space texts) = false <-> texts = [] \/ texts = [""].
Proof.
  unfold join_space. split.
  - intros Hjoin.
    assert (Hempty : String.concat " " texts = "")
      by (destruct (String.concat " " texts); [reflexivity | discriminate]).
    destruct texts as [ | x [ | y rest]]; cbn in Hempty.
    + left. reflexivity.
    + right. rewrite Hempty. reflexivity.
    + apply string_app_nil in Hempty as [_ Hrest]. discriminate.
  - intros [-> | ->]; reflexivity.
Qed.

Lemma string_length_app (a b : string) :
  String.length (a ++ b) = (String.length a + String.length b)%nat.
Proof. induction a as [ | c a IH]; cbn; [reflexivity | rewrite IH; reflexivity]. Qed.

Lemma string_app_same_tail (p q a b : string) :
  String.length a = String.length b ->
  (p ++ a)%string = (q ++ b)%string -> a = b.
Proof.
  revert q. induction p as [ | c p IH]; intros q Hlen Heq.
  - destruct q as [ | c' q]; cbn in Heq; [exact Heq | ].
    apply (f_equal String.length) in Heq. cbn in Heq.
    rewrite string_length_app in Heq. lia.
  - destruct q as [ | c' q]; cbn in Heq.
    + apply (f_equal String.length) in Heq. cbn in Heq.
      rewrite string_length_app in Heq. lia.
    + injection Heq as _ Heq. apply (IH q Hlen Heq).
Qed.

Lemma endswith_spec (s suffix : string) :
  Client.endswith s suffix = true <-> exists p, s = (p ++ suffix)%string.
Proof.
  induction s as [ | c s IH]; cbn [Client.endswith].
  - destruct (String.eqb_spec "" suffix) as [<- | Hne].
    + split; [exists ""; reflexivity | reflexivity].
    + split; [discriminate | ].
      intros (p & Hp). symmetry in Hp. apply string_app_nil in Hp as [_ Hs].
      congruence.
  - destruct (String.eqb_spec (String c s) suffix) as [<- | Hne].
    + split; [exists ""; reflexivity | reflexivity].
    + rewrite IH. split.
      * intros (p & ->). exists (String c p). reflexivity.
      * intros ([ | c' p] & Hp); cbn in Hp; [congruence | ].
        injection Hp as _ ->. exists p. reflexivity.
Qed.

(** X18. [connect_to_server] accepts a script path exactly when it ends
    in [.py] or in [.js], and raises before anything is launched
    otherwise; a path in [.py] is run with the interpreter of the local
    environment, a path in [.js] with [node], and in both cases the
    path is the only argument. *)
Theorem server_params_by_suffix (path : string) :
  (Client.server_params path = Raise
   <-> ~ exists stem, path = (stem ++ ".py")%string \/ path = (stem ++ ".js")%string)
  /\ ((exists stem, path = (stem ++ ".py")%string) ->
      Client.server_params path = Ok (".env/bin/python", [path]))
  /\ ((exists stem, path = (stem ++ ".js")%string) ->
      Client.server_params path = Ok ("node", [path])).
Proof.
  unfold Client.server_params. cbv zeta.
  destruct (Client.endswith path ".py") eqn:Hpy;
    destruct (Client.endswith path ".js") eqn:Hjs; cbn.
  - apply endswith_spec in Hpy as (p & Hp). apply endswith_spec in Hjs as (q & Hq).
    rewrite Hp in Hq. apply string_app_same_tail in Hq; [discriminate | reflexivity].
  - apply endswith_spec in Hpy as (p & Hp).
    split; [split; [discriminate | intros Hno; exfalso; apply Hno; eauto] | ].
    split; [reflexivity | ].
    intros (q & Hq). rewrite Hp in Hq.
    apply string_app_same_tail in Hq; [discriminate | reflexivity].
  - apply endswith_spec in Hjs as (q & Hq).
    split; [split; [discriminate | intros Hno; exfalso; apply Hno; eauto] | ].
    split; [ | reflexivity].
    intros (p & Hp). rewrite Hq in Hp.
    apply string_app_same_tail in Hp; [discriminate | reflexivity].
  - assert (Hnone : ~ exists stem,
               path = (stem ++ ".py")%string \/ path = (stem ++ ".js")%string).
    { intros (stem & [Hs | Hs]).
      - assert (Client.endswith path ".py" = true)
          by (apply endswith_spec; eauto). congruence.
      - assert (Client.endswith path ".js" = true)
          by (apply endswith_spec; eauto). congruence. }
    split; [split; [intros _; exact Hnone | reflexivity] | ].
    split; intros (stem & Hs); exfalso; apply Hnone; eauto.
Qed.

(** ** Runs of the further properties *)

(** The meeting key of the meeting replaces that of the session. *)
Lemma dict_merge_lookup_witness :
  dict_get "meeting_key"
    (dict_merge [("meeting_key", PInt 1); ("session_name", PStr "Race")]
       [("meeting_key", PInt 2); ("country_name", PStr "Bahrain")])
  = Some (PInt 2).
Proof.
  refine (dict_merge_lookup
            [("meeting_key", PInt 1); ("session_name", PStr "Race")]
            [("meeting_key", PInt 2); ("country_name", PStr "Bahrain")]
            "meeting_key" _).
  repeat (constructor; [cbn; intuition discriminate | ]). constructor.
Defined.

(** An endpoint that answers with the rows of two drivers, and one
    whose second row is a number. *)
Lemma rows_all_or_nothing_witness :
  fst (StdioServer.get_drivers
         (Scenario.flaky 0
            (PList [Scenario.driver_row 44 "Lewis" "Hamilton" "HAM";
                    Scenario.driver_row 63 "George" "Russell" "RUS"]))
         Scenario.exact_Driver 9158 None (OpenF1Utils.mk_net 0%nat []))
  = Ok [F1Types.Build_Driver "Hamilton" 44 "Lewis" "Hamilton" "HAM" "Mercedes"
          (Some "27F4D2") None;
        F1Types.Build_Driver "Russell" 63 "George" "Russell" "RUS" "Mercedes"
          (Some "27F4D2") None]
  /\ fst (StdioServer.get_drivers
            (Scenario.flaky 0
               (PList [Scenario.driver_row 44 "Lewis" "Hamilton" "HAM";
                       PInt 63]))
            Scenario.exact_Driver 9158 None (OpenF1Utils.mk_net 0%nat []))
     = Raise.
Proof.
  split.
  - refine (proj2 (proj1 (rows_all_or_nothing nat
                            (Scenario.flaky 0
                               (PList [Scenario.driver_row 44 "Lewis" "Hamilton"
                                         "HAM";
                                       Scenario.driver_row 63 "George" "Russell"
                                         "RUS"]))
                            Scenario.exact_Driver (fun _ => None) 9158 None None
                            (OpenF1Utils.mk_net 0%nat []))
                     _ _ eq_refl) _).
    constructor; [eexists; split; reflexivity | ].
    constructor; [eexists; split; reflexivity | constructor].
  - destruct (fst (StdioServer.get_drivers
                     (Scenario.flaky 0
                        (PList [Scenario.driver_row 44 "Lewis" "Hamilton" "HAM";
                                PInt 63]))
                     Scenario.exact_Driver 9158 None
                     (OpenF1Utils.mk_net 0%nat []))) as [r | ] eqn:Hr;
      [exfalso | reflexivity].
    apply (proj1 (proj1 (rows_all_or_nothing nat
                           (Scenario.flaky 0
                              (PList [Scenario.driver_row 44 "Lewis" "Hamilton"
                                        "HAM";
                                      PInt 63]))
                           Scenario.exact_Driver (fun _ => None) 9158 None None
                           (OpenF1Utils.mk_net 0%nat []))
                    _ r eq_refl)) in Hr.
    inversion Hr as [ | x a l l' _ Hrest]; subst.
    inversion Hrest as [ | x' a' l2 l2' Hrow _]; subst.
    destruct Hrow as (d & Hd & _). discriminate Hd.
Defined.

(** Two rows, of which the first has no meeting to be fetched. *)
Lemma get_sessions_at_most_rows_witness :
  (List.length
     [F1Types.Build_Session 9002 "Race" "Race" "2024-03-02T15:00:00+00:00" None
        2 "Sakhir" "Bahrain" (Some "Bahrain Grand Prix")]
   <= List.length [Scenario.session_row 9001 1; Scenario.session_row 9002 2])%nat.
Proof.
  refine (proj2 (get_sessions_at_most_rows unit Scenario.openf1
                   Scenario.exact_Session Scenario.no_repr "2024-03-01" None
                   (OpenF1Utils.mk_net tt []) _ _ _ _)).
  - reflexivity.
  - reflexivity.
Defined.

(** [get_drivers] on an endpoint that is down. *)
Lemma tools_on_dead_endpoint_witness :
  StdioServer.get_drivers Scenario.down (fun _ => None) 9158 (Some 44)
    (OpenF1Utils.mk_net tt [])
  = (Ok [],
     OpenF1Utils.mk_net tt
       (repeat "https://api.openf1.org/v1/drivers?session_key=9158&driver_number=44"
          5)).
Proof.
  refine (proj1 (proj2 (tools_on_dead_endpoint unit Scenario.down (fun _ => None)
                          (fun _ => None) (fun _ => None) (fun _ => None)
                          Scenario.no_repr (OpenF1Utils.mk_net tt []) tt))
            9158 (Some 44) _).
  repeat (exists tt; split; [reflexivity | ]). reflexivity.
Defined.

(** The sessions of one type, asked of an endpoint that is down. *)
Lemma empty_filter_is_no_filter_witness :
  exists (k : nat) (new : list string),
    (1 <= k)%nat /\ Z.of_nat k <= OpenF1Utils.max_retries
    /\ OpenF1Utils.attempts
         (snd (StdioServer.get_sessions Scenario.down (fun _ => None)
                 Scenario.no_repr "2024-03-01" (Some "Race")
                 (OpenF1Utils.mk_net tt [])))
       = [] ++ repeat
                 "https://api.openf1.org/v1/sessions?date_start>=2024-03-01&session_type=Race"
                 k ++ new.
Proof.
  refine (proj1 (proj2 (proj2 (proj2 (proj2
            (empty_filter_is_no_filter unit Scenario.down (fun _ => None)
               (fun _ => None) Scenario.no_repr "2024-03-01" 9158 "Race"
               (OpenF1Utils.mk_net tt []))))) _)).
  discriminate.
Defined.

(** One driver of a session, asked of an endpoint that is down. *)
Lemma get_drivers_zero_unfiltered_witness :
  snd (StdioServer.get_drivers Scenario.down (fun _ => None) 9158 (Some 44)
         (OpenF1Utils.mk_net tt []))
  = snd (OpenF1Utils.get_response Scenario.down
           "https://api.openf1.org/v1/drivers?session_key=9158&driver_number=44"
           (OpenF1Utils.mk_net tt [])).
Proof.
  refine (proj1 (proj2 (proj2 (proj2 (proj2
            (get_drivers_zero_unfiltered unit Scenario.down (fun _ => None)
               9158 44 (OpenF1Utils.mk_net tt []))))) _)).
  discriminate.
Defined.

(** The first call of the model in a query on an empty history. *)
Lemma model_sees_whole_history_witness :
  [Client.query_message "what time is it"]
  = [] ++ Client.appended
            [Client.ev_append (Client.query_message "what time is it");
             Client.ev_list_tools].
Proof.
  refine (model_sees_whole_history unit Scenario.eager Scenario.one_tool
            Scenario.answering "what time is it" 1 [] tt
            [Client.ev_append (Client.query_message "what time is it");
             Client.ev_list_tools]
            _ [Client.query_message "what time is it"]
            [Client.ToolUseBlock "tu_1" "get_current_date_and_time" (PDict [])
               None] _).
  reflexivity.
Defined.

(** An eager model, a clock, and a budget of three calls. *)
Lemma eager_run_uses_budget_witness :
  let s' :=
    Client.process_query Scenario.eager Scenario.one_tool Scenario.clock
      "what time is it" 3 [] tt in
  Client.tool_calls s' = 3
  /\ Z.of_nat (Client.inferences (Client.log s')) = 3
  /\ Z.of_nat (Client.executions (Client.log s')) = 3
  /\ Client.done s' = false.
Proof.
  refine (eager_run_uses_budget unit Scenario.eager Scenario.one_tool
            Scenario.clock "what time is it" 3 [] tt _ _ _).
  - intros model msgs tools max_tokens w. repeat eexists.
  - intros name input w. reflexivity.
  - discriminate.
Defined.

(** The server of this repository, and a script in another language. *)
Lemma server_params_by_suffix_witness :
  Client.server_params "stdio_server.py"
  = Ok (".env/bin/python", ["stdio_server.py"])
  /\ Client.server_params "server.rb" = Raise.
Proof.
  split.
  - refine (proj1 (proj2 (server_params_by_suffix "stdio_server.py")) _).
    exists "stdio_server". reflexivity.
  - refine (proj2 (proj1 (server_params_by_suffix "server.rb")) _).
    intros (stem & [Hs | Hs]).
    + assert (H : Client.endswith "server.rb" ".py" = true)
        by (apply endswith_spec; exists stem; exact Hs).
      discriminate H.
    + assert (H : Client.endswith "server.rb" ".js" = true)
        by (apply endswith_spec; exists stem; exact Hs).
      discriminate H.
Defined.

(** A response whose only row has no meeting key. *)
Lemma malformed_row_raises_witness :
  fst (StdioServer.get_sessions (Scenario.flaky 0 (PList [PDict []]))
         Scenario.exact_Session Scenario.no_repr "2024-03-01" None
         (OpenF1Utils.mk_net 0%nat []))
  = Raise.
Proof.
  refine (proj1 (malformed_row_raises nat (Scenario.flaky 0 (PList [PDict []]))
                   Scenario.exact_Session (fun _ => None) Scenario.no_repr
                   (OpenF1Utils.mk_net 0%nat []) [PDict []])
            "2024-03-01" None _ _).
  - reflexivity.
  - left. reflexivity.
Defined.

(** * client.py, with a tool session that can fail

    [Client] takes the call of a tool and the reading of its result as
    steps that always return. Here they can raise, as
    [session.call_tool] and the comprehension over [result.content] can:
    the exception leaves [process_query] at once, and [self.messages]
    stays as it was at that point. A run that returns is the run of
    [Client] on the same answers. *)

Module Fallible.

Import Client.

(** How [process_query] ends, and the state it leaves. *)
Inductive outcome (World : Type) : Type :=
| Returned (s : state World)
| Raised (s : state World).
Arguments Returned {World} s.
Arguments Raised {World} s.

(** [[content.text for content in result.content]]: an element of the
    content is its [text], or [None] when it has no such attribute (an
    image, an embedded resource); the first of these raises. *)
Fixpoint texts_of (content : list (option string)) : option (list string) :=
  match content with
  | [] => Some []
  | Some text :: content' =>
      match texts_of content' with
      | Some texts => Some (text :: texts)
      | None => None
      end
  | None :: _ => None
  end.

Section Orchestrator.

Variable World : Type.
Variable create :
  string -> list message -> list (list (string * pyval)) -> Z -> World ->
  list response_block * World.
Variable list_tools : World -> list Tool * World.

(** [session.call_tool]: the content of the result, or [Raise]. *)
Variable call_tool :
  string -> pyval -> World -> result (list (option string)) * World.

(** The answers of [call_tool] as a session that always returns has
    them; where [call_tool] or the reading of its result raises, no
    text. *)
Definition settled (name : string) (input : pyval) (w : World)
  : list string * World :=
  match call_tool name input w with
  | (Ok content, w') =>
      (match texts_of content with Some texts => texts | None => [] end, w')
  | (Raise, w') => ([], w')
  end.

(** The body of [for content in response.content]. *)
Definition handle_block (s : state World) (c : response_block)
  : outcome World :=
  match c with
  | TextBlock text =>
      let s := emit (ev_print (text ++ newline)) s in
      Returned (append (text_message text) s)
  | ToolUseBlock tool_use_id tool_name tool_args tu_text =>
      let s := set_done false s in
      let '(current_content, s) :=
        match tu_text with
        | Some t =>
            if truthy_str t
            then ([text_block t], emit (ev_print (t ++ newline)) s)
            else ([], s)
        | None => ([], s)
        end in
      let current_content :=
        current_content ++ [tool_use_block tool_use_id tool_name tool_args] in
      let s := append (mk_message assistant (content_blocks current_content)) s in
      let s := emit (ev_notice tool_name tool_args) s in
      let '(result, w) := call_tool tool_name tool_args (world s) in
      let s := emit (ev_call_tool tool_name tool_args) (set_world w s) in
      match result with
      | Raise => Raised s
      | Ok content =>
          match texts_of content with
          | None => Raised s
          | Some texts =>
              let result_content := join_space texts in
              let s := incr_tool_calls s in
              if truthy_str result_content
              then Returned (append (tool_result tool_use_id result_content) s)
              else
                Returned
                  (set_done true (append (tool_result tool_use_id no_response) s))
          end
      end
  | OtherBlock => Returned s
  end.

Fixpoint for_loop (response : list response_block) (s : state World)
  : outcome World :=
  match response with
  | [] => Returned s
  | c :: rest =>
      match handle_block s c with
      | Returned s' => for_loop rest s'
      | Raised s' => Raised s'
      end
  end.

(** One pass through the body of the [while] loop. *)
Definition round (available_tools : list (list (string * pyval)))
    (s : state World) : outcome World :=
  let '(response, w) :=
    get_anthropic_response create (messages s) available_tools 1000 (world s) in
  let s := emit (ev_create (messages s) response) (set_world w s) in
  let s := set_done true s in
  for_loop response s.

Lemma handle_block_returned (s s' : state World) (c : response_block) :
  handle_block s c = Returned s' -> s' = Client.handle_block settled s c.
Proof.
  destruct c as [text | id name input tu | ]; cbn -[join_space truthy_str].
  - intros H. injection H as <-. reflexivity.
  - unfold settled.
    destruct tu as [t | ]; [destruct (truthy_str t) | ];
      cbn -[join_space truthy_str];
      destruct (call_tool name input (world s)) as [[content | ] w];
      cbn -[join_space truthy_str]; try discriminate;
      (destruct (texts_of content) as [texts | ]; [ | discriminate]);
      cbn -[join_space truthy_str];
      destruct (truthy_str (join_space texts));
      intros H; injection H as <-; reflexivity.
  - intros H. injection H as <-. reflexivity.
Qed.

Lemma for_loop_returned (response : list response_block) :
  forall s s',
    for_loop response s = Returned s' ->
    s' = fold_left (Client.handle_block settled) response s.
Proof.
  induction response as [ | c rest IH]; intros s s' H; cbn in H |- *.
  - injection H as <-. reflexivity.
  - destruct (handle_block s c) as [s1 | s1] eqn:Hc; [ | discriminate].
    apply handle_block_returned in Hc as <-. apply IH. exact H.
Qed.

Lemma round_returned (tools : list (list (string * pyval))) (s s' : state World) :
  round tools s = Returned s' -> s' = Client.round create settled tools s.
Proof.
  unfold round, Client.round.
  destruct (get_anthropic_response create (messages s) tools 1000 (world s))
    as [response w].
  apply for_loop_returned.
Qed.

(** The [while not done and tool_calls < max_tool_calls] loop. *)
Equations? while_loop (available_tools : list (list (string * pyval)))
    (max_tool_calls : Z) (s : state World) : outcome World
  by wf (budget max_tool_calls s) lt :=
  while_loop available_tools max_tool_calls s
    with Logic.inspect (guard max_tool_calls s) := {
    | exist _ true Hguard with Logic.inspect (round available_tools s) := {
        | exist _ (Returned s') Hround =>
            while_loop available_tools max_tool_calls s'
        | exist _ (Raised s') Hround => Raised s' }
    | exist _ false Hguard => Returned s }.
Proof.
  apply round_returned in Hround as ->.
  apply round_budget. exact Hguard.
Qed.

(** [process_query], run on a session whose history is [history]. *)
Definition process_query (query : string) (max_tool_calls : Z)
    (history : list message) (w : World) : outcome World :=
  let s := mk_state history w [] false 0 in
  let s := append (query_message query) s in
  let '(tools, w) := list_tools (world s) in
  let s := emit ev_list_tools (set_world w s) in
  let available_tools := map available_tool tools in
  let s := set_done false s in
  while_loop available_tools max_tool_calls s.

End Orchestrator.

Arguments settled {World} call_tool name input w.
Arguments handle_block {World} call_tool s c.
Arguments for_loop {World} call_tool response s.
Arguments round {World} create call_tool available_tools s.
Arguments while_loop {World} create call_tool available_tools max_tool_calls s.
Arguments process_query {World} create list_tools call_tool query
  max_tool_calls history w.

End Fallible.

(** ** Runs that return, runs that raise *)

Section FallibleFacts.

Import Client.

Variable World : Type.
Variable create :
  string -> list message -> list (list (string * pyval)) -> Z -> World ->
  list response_block * World.
Variable list_tools : World -> list Tool * World.
Variable call_tool :
  string -> pyval -> World -> result (list (option string)) * World.

Lemma fallible_while_loop_step (tools : list (list (string * pyval)))
    (max_tool_calls : Z) (s : state World) :
  Fallible.while_loop create call_tool tools max_tool_calls s
  = if guard max_tool_calls s
    then
      match Fallible.round create call_tool tools s with
      | Fallible.Returned s' =>
          Fallible.while_loop create call_tool tools max_tool_calls s'
      | Fallible.Raised s' => Fallible.Raised s'
      end
    else Fallible.Returned s.
Proof.
  rewrite Fallible.while_loop_equation_1.
  destruct (Logic.inspect (guard max_tool_calls s)) as [[] Hguard]; cbn;
    rewrite Hguard; [ | reflexivity].
  destruct (Logic.inspect (Fallible.round create call_tool tools s))
    as [[s1 | s1] Hround]; cbn; rewrite Hround; reflexivity.
Qed.

Lemma fallible_while_loop_returned (tools : list (list (string * pyval)))
    (max_tool_calls : Z) (n : nat) :
  forall s s',
    n = budget max_tool_calls s ->
    Fallible.while_loop create call_tool tools max_tool_calls s
    = Fallible.Returned s' ->
    s' = Client.while_loop create (Fallible.settled call_tool) tools
           max_tool_calls s.
Proof.
  induction n as [n IH] using lt_wf_ind. intros s s' Hn Hrun.
  rewrite fallible_while_loop_step in Hrun. rewrite while_loop_step.
  destruct (guard max_tool_calls s) eqn:Hguard.
  - destruct (Fallible.round create call_tool tools s) as [s1 | s1] eqn:Hround;
      [ | discriminate].
    apply Fallible.round_returned in Hround. subst s1.
    apply (IH (budget max_tool_calls
                 (Client.round create (Fallible.settled call_tool) tools s)));
      [subst n; apply round_budget; exact Hguard | reflexivity | exact Hrun].
  - injection Hrun as <-. reflexivity.
Qed.

(** A run that returns is the run of [Client.process_query] on the
    answers that the tools gave. *)
Lemma fallible_process_query_returned (query : string) (max_tool_calls : Z)
    (history : list message) (w : World) (s' : state World) :
  Fallible.process_query create list_tools call_tool query max_tool_calls
    history w
  = Fallible.Returned s' ->
  s' = Client.process_query create list_tools (Fallible.settled call_tool) query
         max_tool_calls history w.
Proof.
  unfold Fallible.process_query, Client.process_query. cbn.
  destruct (list_tools w) as [tools w1].
  apply (fallible_while_loop_returned _ _ _ _ _ eq_refl).
Qed.

(** C7, as the code has it. In a run of [process_query] that returns,
    every tool use appended to the history is answered at once: after the
    appending of the message that holds it come the notice, the call of
    that tool and the appending of one message whose only block is the
    result for that same id, with no call of the model and no other
    message in between. The messages appended are those of the history
    returned. *)
Theorem tool_use_answered (query : string) (max_tool_calls : Z)
    (history : list message) (w : World) (s' : state World)
    (pre post : list event) (m : message) (id name : string) (input : pyval) :
  Fallible.process_query create list_tools call_tool query max_tool_calls
    history w
  = Fallible.Returned s' ->
  log s' = pre ++ ev_append m :: post ->
  In (id, name, input) (uses m) ->
  (exists r post',
      post = ev_notice name input :: ev_call_tool name input
               :: ev_append (tool_result id r) :: post')
  /\ messages s' = history ++ appended (log s').
Proof.
  intros Hrun Hlog Hin.
  apply fallible_process_query_returned in Hrun. subst s'.
  destruct (process_query_extends World create list_tools
              (Fallible.settled call_tool) query max_tool_calls history w)
    as (ext & Hl & Hm & _ & Ha & _).
  split.
  - apply (answered_split (pre ++ ev_append m :: post)) with (pre := pre) (m := m);
      [ | reflexivity | exact Hin].
    rewrite <- Hlog, Hl.
    apply (answered_app [ev_append (query_message query); ev_list_tools] ext);
      [apply entry_answered | exact Ha].
  - rewrite Hm, Hl. reflexivity.
Qed.

End FallibleFacts.

(** Tool sessions for the runs below: one whose call raises, one that
    returns an image, one that returns the time. *)
Module Incident.

Definition refusing {World : Type} (name : string) (input : pyval) (w : World)
  : result (list (option string)) * World :=
  (Raise, w).

Definition pictured {World : Type} (name : string) (input : pyval) (w : World)
  : result (list (option string)) * World :=
  (Ok [None], w).

Definition timed {World : Type} (name : string) (input : pyval) (w : World)
  : result (list (option string)) * World :=
  (Ok [Some "2024-03-02T15:00:00"], w).

End Incident.

(** C7 as stated fails: when the tool returns an image, whose content
    has no text, or when its call raises, [process_query] is left with
    the tool use as the last message of the history and no result for
    it. *)
Lemma tool_use_left_unanswered :
  let asked_for :=
    Client.mk_message Client.assistant
      (Client.content_blocks
         [Client.tool_use_block "tu_1" "get_current_date_and_time" (PDict [])]) in
  let left :=
    Client.mk_state
      [Client.query_message "what time is it"; asked_for] tt
      [Client.ev_append (Client.query_message "what time is it");
       Client.ev_list_tools;
       Client.ev_create [Client.query_message "what time is it"]
         [Client.ToolUseBlock "tu_1" "get_current_date_and_time" (PDict []) None];
       Client.ev_append asked_for;
       Client.ev_notice "get_current_date_and_time" (PDict []);
       Client.ev_call_tool "get_current_date_and_time" (PDict [])]
      false 0 in
  Fallible.process_query Scenario.eager Scenario.one_tool Incident.pictured
    "what time is it" 5 [] tt
  = Fallible.Raised left
  /\ Fallible.process_query Scenario.eager Scenario.one_tool Incident.refusing
       "what time is it" 5 [] tt
     = Fallible.Raised left.
Proof.
  vm_compute. split; reflexivity.
Qed.

(** The tool use of the first round of an eager model, answered by the
    time. *)
Lemma tool_use_answered_witness :
  exists r post',
    [Client.ev_notice "get_current_date_and_time" (PDict []);
     Client.ev_call_tool "get_current_date_and_time" (PDict []);
     Client.ev_append (Client.tool_result "tu_1" "2024-03-02T15:00:00")]
    = Client.ev_notice "get_current_date_and_time" (PDict [])
        :: Client.ev_call_tool "get_current_date_and_time" (PDict [])
        :: Client.ev_append (Client.tool_result "tu_1" r) :: post'.
Proof.
  refine (proj1 (tool_use_answered unit Scenario.eager Scenario.one_tool
                   Incident.timed "what time is it" 1 [] tt
                   (Client.process_query Scenario.eager Scenario.one_tool
                      (Fallible.settled Incident.timed) "what time is it" 1 []
                      tt)
                   [Client.ev_append (Client.query_message "what time is it");
                    Client.ev_list_tools;
                    Client.ev_create [Client.query_message "what time is it"]
                      [Client.ToolUseBlock "tu_1" "get_current_date_and_time"
                         (PDict []) None]]
                   _
                   (Client.mk_message Client.assistant
                      (Client.content_blocks
                         [Client.tool_use_block "tu_1"
                            "get_current_date_and_time" (PDict [])]))
                   "tu_1" "get_current_date_and_time" (PDict []) _ _ _)).
  - reflexivity.
  - reflexivity.
  - left. reflexivity.
Defined.
